(** * xml_to_csv.py: a shallow embedding and its verified properties

    The program converts every [*.xml] file of the directory [xml] that sits
    beside the script into a CSV file of the directory [xml/csv]: each
    [<Sample>] element becomes a row, each of its children a column.

    The embedding follows the source.  The standard-library calls the script
    makes ([xml.etree.ElementTree], [csv.DictWriter], [pathlib.Path], [open],
    [print]) are modelled in modules of their own, the two functions of the
    script ([xml_to_csv] and [main]) are written over them in a
    state-and-exception monad whose state is the file system and the
    console.  File names are byte strings; a name that is not well-formed
    UTF-8 cannot be printed. *)

From stdpp Require Import base option list strings gmap sorting.
From Stdlib Require Import ZArith Ascii.

Local Open Scope Z_scope.
Local Set Warnings "-register-all".

(** ** Exceptions and results *)

(** The Python exceptions the modelled calls can raise.  All of them are
    subclasses of [Exception]; [UnicodeEncodeError] is a subclass of
    [ValueError], the last four are subclasses of [OSError]. *)
Inductive exn :=
| ParseError
| ValueError
| UnicodeEncodeError
| FileNotFoundError
| FileExistsError
| IsADirectoryError
| NotADirectoryError.

Definition is_OSError (e : exn) : bool :=
  match e with
  | ParseError | ValueError | UnicodeEncodeError => false
  | _ => true
  end.

Inductive result (A : Type) :=
| Ok (a : A)
| Raise (e : exn).
Arguments Ok {A} a.
Arguments Raise {A} e.

#[global] Instance result_ret : MRet result := @Ok.
#[global] Instance result_bind : MBind result := fun A B f r =>
  match r with
  | Ok a => f a
  | Raise e => Raise e
  end.

(** ** XML elements *)

(** An element as the script reads it: its tag, its text ([None] when the
    element has no character data before its first child) and its children.
    The default parser drops comments and processing instructions, so every
    child is an element.  Attributes and tails are never read. *)
Inductive Element :=
  mkElement (tag : string) (text : option string) (children : list Element).

Definition tag (e : Element) : string :=
  match e with mkElement t _ _ => t end.
Definition text (e : Element) : option string :=
  match e with mkElement _ x _ => x end.
Definition children (e : Element) : list Element :=
  match e with mkElement _ _ cs => cs end.

(** ** Python strings *)

(** A file name is the sequence of bytes the directory holds.  Python decodes
    it with the [surrogateescape] handler: a byte that is not part of
    well-formed UTF-8 becomes a lone surrogate, which the same handler turns
    back into the byte when the name goes to the operating system.  A string
    with a surrogate cannot be encoded by the strict [utf-8] codec. *)

Module Str.

(** [s.encode('utf-8')] succeeds: the bytes are well-formed UTF-8 (the
    Unicode Standard, table 3-7).  [utf8_from need lo hi s] reads [s] with
    [need] continuation bytes still to come, the next of them between [lo]
    and [hi]. *)
Fixpoint utf8_from (need : nat) (lo hi : N) (s : string) : bool :=
  match s with
  | EmptyString => match need with O => true | S _ => false end
  | String a s' =>
      let b := N_of_ascii a in
      match need with
      | S need' =>
          (lo <=? b)%N && (b <=? hi)%N && utf8_from need' 128 191 s'
      | O =>
          if (b <? 128)%N then utf8_from 0 128 191 s'
          else if (194 <=? b)%N && (b <=? 223)%N then utf8_from 1 128 191 s'
          else if (b =? 224)%N then utf8_from 2 160 191 s'
          else if (b =? 237)%N then utf8_from 2 128 159 s'
          else if (225 <=? b)%N && (b <=? 239)%N then utf8_from 2 128 191 s'
          else if (b =? 240)%N then utf8_from 3 144 191 s'
          else if (241 <=? b)%N && (b <=? 243)%N then utf8_from 3 128 191 s'
          else if (b =? 244)%N then utf8_from 3 128 143 s'
          else false
      end
  end.

Definition encodable (s : string) : bool := utf8_from 0 128 191 s.

(** [s.rfind(c)] for a one-character [c]: the index of its last occurrence,
    [-1] when there is none.  [rfind_from c s i] is [i] more than that
    index when there is one (the string is a tail taken at offset [i]). *)
Fixpoint rfind_from (c : ascii) (s : string) (i : Z) : Z :=
  match s with
  | EmptyString => -1
  | String a s' =>
      let r := rfind_from c s' (i + 1) in
      if 0 <=? r then r else if Ascii.eqb a c then i else -1
  end.

Definition rfind (c : ascii) (s : string) : Z := rfind_from c s 0.

(** [s.endswith(suffix)]. *)
Fixpoint endswith (suffix s : string) : bool :=
  String.eqb s suffix ||
  match s with
  | EmptyString => false
  | String _ s' => endswith suffix s'
  end.

End Str.

(** ** The file system *)

(** What a regular file holds.  XML text is identified with what
    [ET.parse] makes of it, CSV text with the records [csv.writer] wrote.
    Text that [csv.writer] wrote is never well-formed XML: it is empty or
    starts with a header line, which holds no markup. *)
Inductive content :=
| XmlDocument (root : Element)
| Malformed
| CsvText (records : list (list string)).

Inductive node :=
| File (c : content)
| Dir (entries : gmap string node).

Module os.

(** Walk [p] (components from the root) and rebuild the tree with the node at
    [p] changed by [change]; a missing last component is created as [create]
    when there is one.  A missing component raises ENOENT, a regular file in
    the way raises ENOTDIR, as path resolution does. *)
Fixpoint update_path (create : option node) (change : node -> result node)
    (p : list string) (n : node) : result node :=
  match p with
  | [] => change n
  | x :: p' =>
      match n with
      | File _ => Raise NotADirectoryError
      | Dir es =>
          match es !! x with
          | Some n' =>
              n'' ← update_path create change p' n';
              mret (Dir (<[x := n'']> es))
          | None =>
              match p', create with
              | [], Some new => mret (Dir (<[x := new]> es))
              | _, _ => Raise FileNotFoundError
              end
          end
      end
  end.

(** [os.stat(p)]: the node at [p]. *)
Fixpoint stat (p : list string) (n : node) : result node :=
  match p with
  | [] => mret n
  | x :: p' =>
      match n with
      | File _ => Raise NotADirectoryError
      | Dir es =>
          match es !! x with
          | Some n' => stat p' n'
          | None => Raise FileNotFoundError
          end
      end
  end.

(** [os.mkdir(p)]: EEXIST when something is there.  Permissions are not
    modelled. *)
Definition mkdir : list string -> node -> result node :=
  update_path (Some (Dir ∅)) (fun _ => Raise FileExistsError).

(** [open(p, 'w')]: create the file or truncate it. *)
Definition open_w : list string -> node -> result node :=
  update_path (Some (File (CsvText [])))
    (fun n => match n with
              | File _ => mret (File (CsvText []))
              | Dir _ => Raise IsADirectoryError
              end).

(** One more record written through a handle that [open_w] returned.  The
    file was truncated when it was opened, so it holds the records written
    since. *)
Definition write_record (rec : list string) : list string -> node -> result node :=
  update_path None
    (fun n => match n with
              | File (CsvText rs) => mret (File (CsvText (rs ++ [rec])))
              | File _ => mret (File (CsvText [rec]))
              | Dir _ => Raise IsADirectoryError
              end).

(** [os.scandir(p)]: the names in a directory, in the order the listing
    gives them. *)
Definition scandir (p : list string) (n : node) : result (list string) :=
  d ← stat p n;
  match d with
  | Dir es => mret (map fst (map_to_list es))
  | File _ => Raise NotADirectoryError
  end.

End os.

(** ** xml.etree.ElementTree *)

Module ET.

(** [Element.iter()]: the element itself, then its descendants, in document
    (pre-) order. *)
Fixpoint iter (e : Element) : list Element :=
  match e with
  | mkElement _ _ cs => e :: flat_map iter cs
  end.

(** [Element.iter(t)]. *)
Definition iter_tag (t : string) (e : Element) : list Element :=
  filter (fun x => tag x = t) (iter e).

(** [Element.findall('.//' + t)].  ElementPath evaluates the descendant step
    as [for e in elem.iter(t): if e is not elem: yield e]: the context element
    is the head of its own pre-order, every later entry is a proper
    descendant. *)
Definition findall_descendants (t : string) (e : Element) : list Element :=
  filter (fun x => tag x = t) (List.tl (iter e)).

(** [ET.parse(p).getroot()]: open the file and parse it.  A missing file
    and a directory raise the [OSError] of [open], text that is not
    well-formed XML raises [ParseError]. *)
Definition parse (p : list string) (n : node) : result Element :=
  f ← os.stat p n;
  match f with
  | Dir _ => Raise IsADirectoryError
  | File (XmlDocument root) => mret root
  | File _ => Raise ParseError
  end.

End ET.

(** ** csv.DictWriter *)

Module csv.

(** [DictWriter._dict_to_list] with the defaults the script leaves in place:
    [restval=''] and [extrasaction='raise']. *)
Definition dict_to_list (fieldnames : list string) (rowdict : gmap string string)
    : result (list string) :=
  let wrong_fields : gset string := dom rowdict ∖ list_to_set fieldnames in
  if decide (wrong_fields = ∅)
  then mret (map (fun key => default "" (rowdict !! key)) fieldnames)
  else Raise ValueError.

(** [dict(zip(fieldnames, fieldnames))], the row [writeheader] writes. *)
Definition header (fieldnames : list string) : gmap string string :=
  foldl (fun d kv => <[kv.1 := kv.2]> d) ∅ (zip fieldnames fieldnames).

End csv.

(** ** pathlib.Path *)

Module pathlib.

(** A path is the list of its components, the last one first, so that
    [parent] is the tail; the empty list is the root, its own parent. *)
Definition Path := list string.

Definition joinpath (p : Path) (child : string) : Path := child :: p.
Definition parent (p : Path) : Path := List.tl p.
Definition name (p : Path) : string := List.hd "" p.
Definition os_path (p : Path) : list string := rev p.

(** [PurePath.stem]. *)
Definition stem (p : Path) : string :=
  let name := name p in
  let i := Str.rfind "." name in
  if (0 <? i) && (i <? Z.of_nat (String.length name) - 1)
  then String.substring 0 (Z.to_nat i) name
  else name.

Definition exists_ (p : Path) (n : node) : bool :=
  match os.stat (os_path p) n with
  | Ok _ => true
  | Raise _ => false
  end.

Definition is_dir (p : Path) (n : node) : bool :=
  match os.stat (os_path p) n with
  | Ok (Dir _) => true
  | _ => false
  end.

(** [Path.mkdir(parents=False, exist_ok=exist_ok)]: ENOENT is raised again;
    another [OSError] is swallowed when [exist_ok] holds and the path is a
    directory. *)
Definition mkdir_here (exist_ok : bool) (p : Path) (n : node) : result node :=
  match os.mkdir (os_path p) n with
  | Ok n' => Ok n'
  | Raise FileNotFoundError => Raise FileNotFoundError
  | Raise e =>
      if is_OSError e
      then if negb exist_ok || negb (is_dir p n) then Raise e else Ok n
      else Raise e
  end.

(** [Path.mkdir(parents=True, exist_ok=exist_ok)]: on ENOENT the parent is
    made first (with [parents=True, exist_ok=True]) and the directory itself
    is then made without [parents]. *)
Fixpoint mkdir_parents (exist_ok : bool) (p : Path) (n : node) : result node :=
  match os.mkdir (os_path p) n with
  | Ok n' => Ok n'
  | Raise FileNotFoundError =>
      match p with
      | [] => Raise FileNotFoundError
      | _ :: parent =>
          n1 ← mkdir_parents true parent n;
          mkdir_here exist_ok p n1
      end
  | Raise e =>
      if is_OSError e
      then if negb exist_ok || negb (is_dir p n) then Raise e else Ok n
      else Raise e
  end.

Definition mkdir (parents exist_ok : bool) (p : Path) (n : node) : result node :=
  if parents then mkdir_parents exist_ok p n else mkdir_here exist_ok p n.

(** [Path.glob('*' + suffix)]: the entries of the directory whose name ends
    in [suffix] (names that start with a dot included, directories included),
    in listing order; nothing when [p] is not a directory. *)
Definition glob_suffix (suffix : string) (p : Path) (n : node) : list Path :=
  match os.scandir (os_path p) n with
  | Ok names => map (joinpath p) (filter (fun nm => Str.endswith suffix nm) names)
  | Raise _ => []
  end.

End pathlib.

Import pathlib.

(** ** The world of the script: the file system and the console *)

(** The lines the script prints.  The exception text of the two error lines
    is left out: it is ASCII but for a file name, which an [OSError] shows
    through [repr], its lone surrogates escaped, so it can always be
    encoded. *)
Inductive line :=
| WarningNoSamples (xml_file_path : Path)
| SuccessfullyConverted (xml_file_path csv_file_path : Path)
| FoundSamples (n : nat)
| CreatedColumns (n : nat)
| ErrorParsing (xml_file_path : Path)
| ErrorProcessing (xml_file_path : Path) (e : exn)
| ErrorNoXmlDirectory (xml_dir : Path)
| NoXmlFilesFound (xml_dir : Path)
| FoundXmlFiles (n : nat)
| Processing (name : string)
| Blank.

Record world := World { fs : node; console : list line }.

(** Computations that read and change the world and may raise. What was done
    before an exception stays done. *)
Definition M (A : Type) : Type := world -> result A * world.

#[global] Instance M_ret : MRet M := fun A a w => (Ok a, w).
#[global] Instance M_bind : MBind M := fun A B f m w =>
  match m w with
  | (Ok a, w') => f a w'
  | (Raise e, w') => (Raise e, w')
  end.

(** [str(p).encode('utf-8')] succeeds: the separators are ASCII, so the
    text of a path is well-formed UTF-8 when each component is. *)
Definition encodable_path (p : Path) : bool := forallb Str.encodable p.

(** The text of the line can be encoded: apart from the paths and the name
    it shows, a line is ASCII. *)
Definition line_encodable (l : line) : bool :=
  match l with
  | WarningNoSamples p | ErrorParsing p | ErrorProcessing p _
  | ErrorNoXmlDirectory p | NoXmlFilesFound p => encodable_path p
  | SuccessfullyConverted p q => encodable_path p && encodable_path q
  | Processing nm => Str.encodable nm
  | FoundSamples _ | CreatedColumns _ | FoundXmlFiles _ | Blank => true
  end.

(** [print(...)] to a standard output that encodes with [utf-8] and the
    [strict] error handler, as a terminal in a UTF-8 locale does.  The whole
    text is encoded before any of it is written: a line that cannot be
    encoded raises [UnicodeEncodeError] and leaves the console as it was. *)
Definition print (l : line) : M unit :=
  fun w =>
    if line_encodable l then (Ok tt, World (fs w) (console w ++ [l]))
    else (Raise UnicodeEncodeError, w).

Definition fs_read {A} (f : node -> result A) : M A :=
  fun w => (f (fs w), w).

Definition fs_write (f : node -> result node) : M unit :=
  fun w =>
    match f (fs w) with
    | Ok n => (Ok tt, World n (console w))
    | Raise e => (Raise e, w)
    end.

(** [try: body except Exception as e: handler(e)]. *)
Definition try_except {A} (body : M A) (handler : exn -> M A) : M A :=
  fun w =>
    match body w with
    | (Ok a, w') => (Ok a, w')
    | (Raise e, w') => handler e w'
    end.

(** [for x in l: body(x)]. *)
Fixpoint for_each {A} (l : list A) (body : A -> M unit) : M unit :=
  match l with
  | [] => mret tt
  | x :: l' => body x ;; for_each l' body
  end.

(** ** The script *)

(** One step of the two field-collecting loops:
    [if child.tag not in seen_fields: field_names.append(child.tag);
    seen_fields.add(child.tag)]. *)
Definition add_field (st : list string * gset string) (child : Element)
    : list string * gset string :=
  let '(field_names, seen_fields) := st in
  if decide (tag child ∈ seen_fields) then st
  else (field_names ++ [tag child], seen_fields ∪ {[tag child]}).

(** Lines 36-51: the first sample's children, then those of [samples[1:]]. *)
Definition collect_field_names (samples : list Element) : list string :=
  let st : list string * gset string := ([], ∅) in
  let st :=
    match samples with
    | sample0 :: _ => foldl add_field st (children sample0)
    | [] => st
    end in
  let st :=
    foldl (fun st sample => foldl add_field st (children sample)) st (List.tl samples) in
  st.1.

(** Line 63: [row[child.tag] = child.text if child.text is not None else '']. *)
Definition set_cell (row : gmap string string) (child : Element)
    : gmap string string :=
  <[tag child := default "" (text child)]> row.

(** Lines 60-63: the dictionary built for one sample. *)
Definition build_row (sample : Element) : gmap string string :=
  foldl set_cell ∅ (children sample).

(** [writer.writerow(row)] on the open file. *)
Definition writerow (csvfile : Path) (fieldnames : list string)
    (rowdict : gmap string string) : M unit :=
  fun w =>
    match csv.dict_to_list fieldnames rowdict with
    | Ok rec => fs_write (os.write_record rec (os_path csvfile)) w
    | Raise e => (Raise e, w)
    end.

Definition xml_to_csv (xml_file_path csv_file_path : Path) : M unit :=
  try_except
    (root ← fs_read (ET.parse (os_path xml_file_path));
     let samples := ET.findall_descendants "Sample" root in
     match samples with
     | [] => print (WarningNoSamples xml_file_path)
     | _ :: _ =>
         let field_names := collect_field_names samples in
         fs_write (os.open_w (os_path csv_file_path)) ;;
         writerow csv_file_path field_names (csv.header field_names) ;;
         for_each samples (fun sample =>
           let row := build_row sample in
           writerow csv_file_path field_names row) ;;
         print (SuccessfullyConverted xml_file_path csv_file_path) ;;
         print (FoundSamples (length samples)) ;;
         print (CreatedColumns (length field_names))
     end)
    (fun e =>
       match e with
       | ParseError => print (ErrorParsing xml_file_path)
       | _ => print (ErrorProcessing xml_file_path e)
       end).

(** The body of the loop of [main] (lines 101-108). *)
Definition process_file (csv_dir xml_file : Path) : M unit :=
  let csv_filename := stem xml_file +:+ ".csv" in
  let csv_file_path := joinpath csv_dir csv_filename in
  print (Processing (name xml_file)) ;;
  xml_to_csv xml_file csv_file_path ;;
  print Blank.

Definition main (script_dir : Path) : M unit :=
  let xml_dir := joinpath script_dir "xml" in
  let csv_dir := joinpath xml_dir "csv" in
  fs_write (pathlib.mkdir true true csv_dir) ;;
  xml_dir_exists ← fs_read (fun n => mret (exists_ xml_dir n));
  if negb xml_dir_exists then print (ErrorNoXmlDirectory xml_dir)
  else
    xml_files ← fs_read (fun n => mret (glob_suffix ".xml" xml_dir n));
    match xml_files with
    | [] => print (NoXmlFilesFound xml_dir)
    | _ :: _ =>
        print (FoundXmlFiles (length xml_files)) ;;
        for_each xml_files (process_file csv_dir)
    end.

(** ** The column order in the words of the specification *)

(** The tag names of the direct children of a sample, in encounter order. *)
Definition child_tags (sample : Element) : list string :=
  map tag (children sample).

(** A list with its duplicates dropped, the first occurrence kept. *)
Fixpoint first_occurrences (l : list string) : list string :=
  match l with
  | [] => []
  | x :: l' => x :: filter (fun y => y ≠ x) (first_occurrences l')
  end.

(** The first sample's tag names, duplicates dropped, followed by the tag
    names of the remaining samples that were not recorded before. *)
Definition column_order (sample0 : Element) (remaining : list Element) : list string :=
  let base := first_occurrences (child_tags sample0) in
  base ++ first_occurrences
            (filter (fun t => t ∉ base) (flat_map child_tags remaining)).

(** The state of the collecting loops is coherent when the set holds the
    names of the list. *)
Definition collect_inv (st : list string * gset string) : Prop :=
  ∀ t, t ∈ st.2 ↔ t ∈ st.1.

(** ** Positions in a document *)

(** The element at a position, the list of child indexes that lead to it
    from the root. *)
Fixpoint element_at (pos : list nat) (e : Element) : option Element :=
  match pos with
  | [] => Some e
  | i :: pos' => children e !! i ≫= element_at pos'
  end.

(** Document order on positions: an element comes before its descendants,
    the subtree of a sibling before the subtrees of the later siblings. *)
Fixpoint precedes (p q : list nat) : Prop :=
  match p, q with
  | [], _ :: _ => True
  | i :: p', j :: q' => (i < j)%nat ∨ (i = j ∧ precedes p' q')
  | _, _ => False
  end.

Section child_positions.
Variable positions_of : Element → list (list nat).

(** The positions below the children [cs], the first of which has index [i]. *)
Fixpoint child_positions (i : nat) (cs : list Element) : list (list nat) :=
  match cs with
  | [] => []
  | c :: cs' => (cons i <$> positions_of c) ++ child_positions (S i) cs'
  end.
End child_positions.

(** All the positions of a document, in document order. *)
Fixpoint positions (e : Element) : list (list nat) :=
  match e with
  | mkElement _ _ cs => [] :: child_positions positions 0 cs
  end.

(** ** Vocabulary for the file-system properties *)

(** Two paths diverge when they differ at a component both have: neither
    is an ancestor of the other. *)
Fixpoint diverge (p q : list string) : Prop :=
  match p, q with
  | x :: p', y :: q' => x ≠ y ∨ diverge p' q'
  | _, _ => False
  end.

(** A file can be opened for writing at [q]. *)
Definition writable (q : list string) (n : node) : Prop :=
  ∃ n', os.open_w q n = Ok n'.

(** [n'] is [n] with the regular file at [p] now holding [recs]; at the
    paths that diverge from [p] nothing changed, and what could be written
    there still can. *)
Definition file_written (p : list string) (recs : list (list string))
    (n n' : node) : Prop :=
  os.stat p n' = Ok (File (CsvText recs)) ∧
  (∀ q, diverge p q → os.stat q n' = os.stat q n) ∧
  (∀ q, diverge p q → writable q n → writable q n').

(** The record [csv.DictWriter] emits for a sample: one cell per column, the
    value the sample's dictionary has under the column's name, [restval]
    (the empty string) when it has none. *)
Definition row_record (fieldnames : list string) (sample : Element) : list string :=
  map (fun key => default "" (build_row sample !! key)) fieldnames.

(** The line of the driver's missing-directory branch (line 88). *)
Definition is_directory_error (l : line) : bool :=
  match l with
  | ErrorNoXmlDirectory _ => true
  | _ => false
  end.

(** The run [m] from [w] only adds lines to the console, none of them the
    missing-directory error. *)
Definition adds_no_directory_error (m : M unit) (w : world) : Prop :=
  ∃ lines, console (m w).2 = console w ++ lines ∧
           Forall (fun l => is_directory_error l = false) lines.

(** ** Sample inputs *)

(** A childless element with text. *)
Definition field (t x : string) : Element := mkElement t (Some x) [].

(** The document of the specification's example scenario. *)
Definition people : Element :=
  mkElement "Root" None
    [ mkElement "Sample" None [field "Name" "Alice"; field "Age" "30"];
      mkElement "Sample" None [field "Name" "Bob"; field "City" "NYC"] ].

(** A sample with an empty element and with a tag that occurs twice. *)
Definition twice : Element :=
  mkElement "Sample" None
    [ field "X" "a"; mkElement "Y" None []; field "X" "b" ].

(** A document with that sample and one more. *)
Definition measurements : Element :=
  mkElement "Root" None [ twice; mkElement "Sample" None [field "Z" "1"] ].


(** A document whose root element is the only [<Sample>]. *)
Definition root_sample : Element :=
  mkElement "Sample" None [ field "Name" "Alice" ].

(** The sample [twice] with a text of its own and with children below
    its children. *)
Definition twice_deep : Element :=
  mkElement "Sample" (Some "ignored")
    [ mkElement "X" (Some "a") [field "Inner" "1"];
      mkElement "Y" None [mkElement "Inner" None [field "Deeper" "2"]];
      field "X" "b" ].

(** A [<Sample>] root with a child of its own and a [<Sample>] below it. *)
Definition nested_root : Element :=
  mkElement "Sample" None
    [ field "A" "1"; mkElement "Sample" None [field "B" "2"] ].

(** A file name that is not well-formed UTF-8: the byte FF, then [.xml]. *)
Definition unencodable_xml : string := String (ascii_of_N 255) ".xml".

(** The script lives in [/app]. *)
Definition app_dir : Path := ["app"].

(** The file system that holds [/app/xml] with the given entries. *)
Definition fs_with (xml_entries : gmap string node) : node :=
  Dir {[ "app" := Dir {[ "xml" := Dir xml_entries ]} ]}.

(** The paths [/app/xml/name] and [/app/xml/csv/name]. *)
Definition xml_in_app (name : string) : Path := [name; "xml"; "app"].
Definition csv_in_app (name : string) : Path := [name; "csv"; "xml"; "app"].

(** ** Vocabulary for the further properties *)

(** What the script reads of a sample: the tag and the text of each direct
    child, in order. *)
Definition shallow (sample : Element) : list (string * option string) :=
  map (fun child => (tag child, text child)) (children sample).

(** * Lemmas *)

(** ** Column order *)

Section first_occurrences.
Implicit Types (l k : list string) (x y : string).

Lemma filter_first_occurrences (P : string -> Prop) `{!∀ x, Decision (P x)} l :
  filter P (first_occurrences l) = first_occurrences (filter P l).
Proof.
  induction l as [|x l IH]; [done|]. cbn [first_occurrences].
  rewrite !filter_cons. destruct (decide (P x)) as [Hx|Hx]; cbn [first_occurrences].
  - f_equal. rewrite <- IH.
    rewrite !list_filter_filter. apply list_filter_iff. tauto.
  - rewrite <- IH. rewrite list_filter_filter.
    apply list_filter_iff. intros y. split; [tauto|].
    intros Hy. split; [done|]. intros ->. done.
Qed.

Lemma elem_of_first_occurrences l x : x ∈ first_occurrences l ↔ x ∈ l.
Proof.
  induction l as [|y l IH]; [done|]. cbn [first_occurrences].
  rewrite !elem_of_cons, list_elem_of_filter, IH.
  destruct (decide (x = y)); tauto.
Qed.

Lemma NoDup_first_occurrences l : NoDup (first_occurrences l).
Proof.
  induction l as [|y l IH]; [constructor|]. cbn [first_occurrences].
  apply NoDup_cons. split; [|by apply NoDup_filter].
  rewrite list_elem_of_filter. tauto.
Qed.

Lemma filter_all (P : string -> Prop) `{!∀ x, Decision (P x)} l :
  (∀ x, x ∈ l → P x) → filter P l = l.
Proof.
  induction l as [|y l IH]; [done|]. intros Hall.
  rewrite filter_cons_True by (apply Hall; left).
  f_equal. apply IH. intros x Hx. apply Hall. by right.
Qed.

Lemma first_occurrences_app l k :
  first_occurrences (l ++ k) =
  first_occurrences l ++
  first_occurrences (filter (fun t => t ∉ first_occurrences l) k).
Proof.
  induction l as [|x l IH]; cbn [first_occurrences app].
  - f_equal. symmetry. apply filter_all. intros y _. apply not_elem_of_nil.
  - f_equal. rewrite IH, filter_app. f_equal.
    rewrite filter_first_occurrences, list_filter_filter. f_equal.
    apply list_filter_iff. intros y.
    rewrite elem_of_cons, list_elem_of_filter, !elem_of_first_occurrences. tauto.
Qed.

(** A name that is already recorded stays where it is: the order is that
    of the first occurrences. *)
Lemma first_occurrences_NoDup_id l : NoDup l → first_occurrences l = l.
Proof.
  induction 1 as [|x l Hx _ IH]; [done|]. cbn [first_occurrences].
  rewrite IH. f_equal. clear IH.
  induction l as [|y l IH]; [done|].
  rewrite not_elem_of_cons in Hx. destruct Hx as [Hxy Hx].
  rewrite filter_cons_True by done. f_equal. auto.
Qed.
End first_occurrences.

Section collect.
Implicit Types (st : list string * gset string) (cs : list Element).

Lemma add_field_spec st child :
  collect_inv st →
  collect_inv (add_field st child) ∧
  (add_field st child).1 =
    st.1 ++ first_occurrences (filter (fun t => t ∉ st.1) [tag child]).
Proof.
  destruct st as [fn seen]. unfold collect_inv, add_field. cbn [fst snd]. intros Hinv.
  destruct (decide (tag child ∈ seen)) as [Hin|Hnin]; cbn [fst snd].
  - split; [done|]. rewrite filter_cons_False, filter_nil.
    + cbn. by rewrite app_nil_r.
    + rewrite <- Hinv. tauto.
  - split.
    + intros t. rewrite elem_of_union, elem_of_singleton, elem_of_app, Hinv.
      rewrite list_elem_of_singleton. done.
    + rewrite filter_cons_True, filter_nil; [done|]. by rewrite <- Hinv.
Qed.

Lemma foldl_add_field_spec cs st (seen : list string) :
  collect_inv st → st.1 = first_occurrences seen →
  collect_inv (foldl add_field st cs) ∧
  (foldl add_field st cs).1 = first_occurrences (seen ++ map tag cs).
Proof.
  revert st seen. induction cs as [|c cs IH]; intros st seen Hinv Hst; cbn [foldl map].
  - by rewrite app_nil_r.
  - destruct (add_field_spec st c Hinv) as [Hinv' Heq].
    destruct (IH (add_field st c) (seen ++ [tag c]) Hinv') as [H1 H2].
    + by rewrite Heq, Hst, first_occurrences_app.
    + split; [done|]. by rewrite H2, <- app_assoc.
Qed.

Lemma foldl_samples_spec (samples : list Element) st (seen : list string) :
  collect_inv st → st.1 = first_occurrences seen →
  (foldl (fun st sample => foldl add_field st (children sample)) st samples).1
  = first_occurrences (seen ++ flat_map child_tags samples).
Proof.
  revert st seen. induction samples as [|s samples IH]; intros st seen Hinv Hst; cbn [foldl flat_map].
  - by rewrite app_nil_r.
  - destruct (foldl_add_field_spec (children s) st seen Hinv Hst) as [H1 H2].
    rewrite (IH _ _ H1 H2). by rewrite <- app_assoc.
Qed.

(** The list the two loops leave: the tag names of all the samples'
    children, each at its first occurrence. *)
Lemma collect_field_names_eq (samples : list Element) :
  collect_field_names samples = first_occurrences (flat_map child_tags samples).
Proof.
  unfold collect_field_names.
  assert (Hinv0 : collect_inv ([], ∅)).
  { intros t. cbn. rewrite elem_of_empty. split; [done|]. apply not_elem_of_nil. }
  destruct samples as [|s0 rest]; [done|]. cbn [List.tl flat_map].
  destruct (foldl_add_field_spec (children s0) ([], ∅) [] Hinv0 eq_refl) as [H1 H2].
  by rewrite (foldl_samples_spec rest _ _ H1 H2).
Qed.

(** The order in the words of the specification is the order of the first
    occurrences over all the samples. *)
Lemma column_order_eq (sample0 : Element) (remaining : list Element) :
  column_order sample0 remaining =
    first_occurrences (flat_map child_tags (sample0 :: remaining)).
Proof. unfold column_order. cbn [flat_map]. by rewrite first_occurrences_app. Qed.

(** It names every column once. *)
Lemma column_order_NoDup (sample0 : Element) (remaining : list Element) :
  NoDup (column_order sample0 remaining).
Proof. rewrite column_order_eq. apply NoDup_first_occurrences. Qed.

(** Its names are the tag names of the samples' children. *)
Lemma elem_of_column_order (sample0 : Element) (remaining : list Element) t :
  t ∈ column_order sample0 remaining ↔
  ∃ sample, sample ∈ sample0 :: remaining ∧ t ∈ child_tags sample.
Proof.
  rewrite column_order_eq, elem_of_first_occurrences, list_elem_of_In, in_flat_map.
  split; intros (s & Hs & Ht); exists s; by rewrite ?list_elem_of_In in *.
Qed.

(** Dropping duplicates keeps the encounter order. *)
Lemma first_occurrences_sublist (l : list string) : first_occurrences l `sublist_of` l.
Proof.
  induction l as [|x l IH]; [done|]. cbn [first_occurrences].
  apply sublist_skip. etrans; [apply sublist_filter|exact IH].
Qed.
End collect.

(** ** The file system *)

Section file_system.
Implicit Types (p q : list string) (n : node).

Lemma diverge_app p q1 q2 : diverge (p ++ q1) (p ++ q2) ↔ diverge q1 q2.
Proof.
  induction p as [|x p IH]; [done|]. cbn [app diverge]. rewrite IH. tauto.
Qed.

Lemma diverge_sym p q : diverge p q → diverge q p.
Proof.
  revert q. induction p as [|x p IH]; intros [|y q]; cbn [diverge]; try done.
  intros [?|?]; [left; congruence|right; auto].
Qed.

(** Paths that diverge from the changed one are not touched. *)
Lemma update_path_frame create change p n n' q :
  os.update_path create change p n = Ok n' →
  diverge p q → os.stat q n' = os.stat q n.
Proof.
  revert n n' q. induction p as [|x p IH]; intros n n' q Hup Hdiv; [done|].
  destruct q as [|y q]; [done|]. cbn [diverge] in Hdiv.
  cbn [os.update_path] in Hup. destruct n as [c|es]; [done|].
  destruct (es !! x) as [nx|] eqn:Hx.
  - destruct (os.update_path create change p nx) as [nx'|e] eqn:Hnx; [|done].
    injection Hup as <-. cbn [os.stat].
    destruct (decide (x = y)) as [->|Hxy].
    + rewrite lookup_insert_eq, Hx. apply (IH _ _ _ Hnx). tauto.
    + by rewrite lookup_insert_ne.
  - destruct p as [|? ?]; [|done]. destruct create as [new|]; [|done].
    injection Hup as <-. cbn [os.stat].
    destruct (decide (x = y)) as [->|Hxy]; [cbn in Hdiv; tauto|].
    by rewrite lookup_insert_ne.
Qed.

(** What is found at the changed path afterwards. *)
Lemma update_path_stat create change p n n' :
  os.update_path create change p n = Ok n' →
  ∃ new, os.stat p n' = Ok new ∧
    ((∃ old, os.stat p n = Ok old ∧ change old = Ok new) ∨
     (os.stat p n = Raise FileNotFoundError ∧ create = Some new)).
Proof.
  revert n n'. induction p as [|x p IH]; intros n n' Hup; cbn [os.update_path] in Hup.
  - exists n'. split; [done|]. left. by exists n.
  - destruct n as [c|es]; [done|]. cbn [os.stat].
    destruct (es !! x) as [nx|] eqn:Hx.
    + destruct (os.update_path create change p nx) as [nx'|e] eqn:Hnx; [|done].
      injection Hup as <-. rewrite lookup_insert_eq. by apply IH.
    + destruct p as [|? ?]; [|done]. destruct create as [new|]; [|done].
      injection Hup as <-. rewrite lookup_insert_eq. exists new. cbn. auto.
Qed.

(** A change that succeeds on the node that is there goes through. *)
Lemma update_path_present create change p n old new :
  os.stat p n = Ok old → change old = Ok new →
  ∃ n', os.update_path create change p n = Ok n'.
Proof.
  revert n. induction p as [|x p IH]; intros n Hst Hch; cbn [os.update_path os.stat] in *.
  - injection Hst as ->. eauto.
  - destruct n as [c|es]; [done|]. destruct (es !! x) as [nx|]; [|done].
    destruct (IH nx Hst Hch) as [nx' ->]. cbn. eauto.
Qed.

(** A change elsewhere keeps a path writable. *)
Lemma open_w_frame create change p n n' q :
  os.update_path create change p n = Ok n' → diverge p q →
  writable q n → writable q n'.
Proof.
  unfold writable, os.open_w.
  revert n n' q. induction p as [|x p IH]; intros n n' q Hup Hdiv [n1 Hq]; [done|].
  destruct q as [|y q]; [done|]. cbn [diverge] in Hdiv.
  cbn [os.update_path] in Hup, Hq |- *. destruct n as [c|es]; [done|].
  destruct (es !! x) as [nx|] eqn:Hx.
  - destruct (os.update_path create change p nx) as [nx'|e] eqn:Hnx; [|done].
    injection Hup as <-.
    destruct (decide (x = y)) as [->|Hxy].
    + rewrite lookup_insert_eq. rewrite Hx in Hq.
      destruct (os.update_path _ _ q nx) as [nq|] eqn:Hnq; [|done].
      destruct (IH _ _ q Hnx) as [nq' ->]; [tauto|eauto|]. cbn. eauto.
    + rewrite lookup_insert_ne by done.
      destruct (es !! y) as [ny|]; [|destruct q; [cbn; eauto|done]].
      destruct (os.update_path _ _ q ny) as [nq|]; [cbn; eauto|done].
  - destruct p as [|? ?]; [|done]. destruct create as [new|]; [|done].
    injection Hup as <-.
    destruct (decide (x = y)) as [->|Hxy]; [cbn in Hdiv; tauto|].
    rewrite lookup_insert_ne by done.
    destruct (es !! y) as [ny|]; [|destruct q; [cbn; eauto|done]].
    destruct (os.update_path _ _ q ny) as [nq|]; [cbn; eauto|done].
Qed.
End file_system.

(** ** Rows *)

Section rows.
Implicit Types (cs : list Element) (row : gmap string string) (c : string).

Lemma foldl_set_cell_other cs row c :
  (∀ x, x ∈ cs → tag x ≠ c) → foldl set_cell row cs !! c = row !! c.
Proof.
  revert row. induction cs as [|x cs IH]; intros row Hcs; [done|]. cbn [foldl].
  rewrite IH by (intros y Hy; apply Hcs; by right).
  unfold set_cell. apply lookup_insert_ne. apply Hcs. by left.
Qed.

Lemma foldl_set_cell_last pre ch post row :
  (∀ x, x ∈ post → tag x ≠ tag ch) →
  foldl set_cell row (pre ++ ch :: post) !! tag ch = Some (default "" (text ch)).
Proof.
  intros Hpost. rewrite foldl_app. cbn [foldl].
  rewrite foldl_set_cell_other by done. unfold set_cell. apply lookup_insert_eq.
Qed.

Lemma foldl_set_cell_dom cs row c :
  is_Some (foldl set_cell row cs !! c) → is_Some (row !! c) ∨ c ∈ map tag cs.
Proof.
  revert row. induction cs as [|x cs IH]; intros row; cbn [foldl map]; [auto|].
  intros [Hc|Hc]%IH.
  - destruct (decide (tag x = c)) as [<-|Hne]; [right; left|].
    unfold set_cell in Hc. rewrite lookup_insert_ne in Hc by done. auto.
  - right. by right.
Qed.

(** The keys of a sample's dictionary are the tag names of its children. *)
Lemma build_row_keys (sample : Element) c :
  is_Some (build_row sample !! c) → c ∈ child_tags sample.
Proof.
  intros [H|H]%foldl_set_cell_dom; [|done].
  rewrite lookup_empty in H. by destruct H.
Qed.

Lemma dict_to_list_ok (fieldnames : list string) row :
  (∀ k, is_Some (row !! k) → k ∈ fieldnames) →
  csv.dict_to_list fieldnames row =
    Ok (map (fun key => default "" (row !! key)) fieldnames).
Proof.
  intros Hkeys. unfold csv.dict_to_list. cbn zeta.
  rewrite decide_True; [done|].
  apply set_eq. intros k.
  rewrite elem_of_difference, elem_of_dom, elem_of_list_to_set, elem_of_empty.
  split; [|done]. intros [H1 H2]. auto.
Qed.

Lemma header_lookup (l : list string) (d : gmap string string) k :
  foldl (fun d kv => <[kv.1 := kv.2]> d) d (zip l l) !! k =
    if decide (k ∈ l) then Some k else d !! k.
Proof.
  revert d. induction l as [|x l IH]; intros d; cbn [zip zip_with foldl].
  - rewrite decide_False; [done|]. apply not_elem_of_nil.
  - rewrite IH. cbn [fst snd].
    destruct (decide (k ∈ l)) as [Hl|Hl].
    + rewrite decide_True; [done|]. by right.
    + destruct (decide (x = k)) as [->|Hne].
      * rewrite lookup_insert_eq. rewrite decide_True; [done|]. by left.
      * rewrite lookup_insert_ne by done.
        rewrite decide_False; [done|]. rewrite elem_of_cons.
        intros [?|?]; [congruence|done].
Qed.

(** [writeheader] emits the field names themselves. *)
Lemma header_record (fieldnames : list string) :
  csv.dict_to_list fieldnames (csv.header fieldnames) = Ok fieldnames.
Proof.
  rewrite dict_to_list_ok.
  - f_equal. rewrite <- (map_id fieldnames) at 2. apply map_ext_in.
    intros k Hk%list_elem_of_In. unfold csv.header.
    rewrite header_lookup, decide_True; done.
  - intros k. unfold csv.header. rewrite header_lookup.
    destruct (decide (k ∈ fieldnames)); [done|].
    rewrite lookup_empty. intros Hk. by destruct Hk.
Qed.

Lemma lookup_map {A B} (f : A → B) (l : list A) (i : nat) :
  map f l !! i = f <$> (l !! i).
Proof.
  revert i. induction l as [|x l IH]; intros [|i]; cbn; auto.
Qed.

(** Every key of every sample's dictionary is a collected field name, so
    [DictWriter] never sees an extra field. *)
Lemma sample_record (samples : list Element) (sample : Element) :
  sample ∈ samples →
  csv.dict_to_list (collect_field_names samples) (build_row sample) =
    Ok (row_record (collect_field_names samples) sample).
Proof.
  intros Hs. apply dict_to_list_ok. intros k Hk%build_row_keys.
  rewrite collect_field_names_eq, elem_of_first_occurrences.
  apply list_elem_of_In, in_flat_map. exists sample.
  split; by apply list_elem_of_In.
Qed.

(** The cell of a column in the record of a sample. *)
Lemma row_record_cell (fieldnames : list string) (sample : Element) (i : nat) c :
  fieldnames !! i = Some c →
  ∃ cell, row_record fieldnames sample !! i = Some cell ∧
    (c ∉ child_tags sample → cell = "") ∧
    (∀ pre child post,
       children sample = pre ++ child :: post →
       tag child = c → (∀ x, x ∈ post → tag x ≠ c) →
       cell = default "" (text child)).
Proof.
  intros Hc. eexists. unfold row_record. rewrite lookup_map, Hc.
  split; [done|]. split.
  - intros Hnot. destruct (build_row sample !! c) as [v|] eqn:Hv; [|done].
    destruct Hnot. apply build_row_keys. by rewrite Hv.
  - intros pre child post Hch <- Hpost. unfold build_row. rewrite Hch.
    by rewrite foldl_set_cell_last.
Qed.
End rows.

(** ** Printing *)

Section printing.
Implicit Types (l : line) (w : world).

Lemma print_encodable l w :
  line_encodable l = true → print l w = (Ok tt, World (fs w) (console w ++ [l])).
Proof. unfold print. by intros ->. Qed.

Lemma print_result l w :
  (print l w).1 = if line_encodable l then Ok tt else Raise UnicodeEncodeError.
Proof. unfold print. by destruct (line_encodable l). Qed.

Lemma print_fs l w : fs (print l w).2 = fs w.
Proof. unfold print. by destruct (line_encodable l). Qed.

Lemma print_console l w :
  console (print l w).2 = console w ++ (if line_encodable l then [l] else []).
Proof.
  unfold print. destruct (line_encodable l); [done|]. cbn. by rewrite app_nil_r.
Qed.

(** The name of a path that can be encoded can be encoded. *)
Lemma encodable_path_name (p : Path) :
  encodable_path p = true → Str.encodable (name p) = true.
Proof.
  destruct p as [|nm p]; [done|]. unfold encodable_path, name.
  cbn [forallb List.hd]. by intros [? _]%andb_true_iff.
Qed.

Lemma encodable_path_joinpath (p : Path) (nm : string) :
  encodable_path (joinpath p nm) = Str.encodable nm && encodable_path p.
Proof. done. Qed.
End printing.

(** ** Writing the CSV file *)

Section writing.
Implicit Types (p : list string) (n : node) (w : world).

Lemma file_written_trans p recs1 recs2 n n1 n2 :
  file_written p recs1 n n1 → file_written p recs2 n1 n2 →
  file_written p recs2 n n2.
Proof.
  intros (_ & Hf1 & Hk1) (Hst & Hf2 & Hk2). split; [done|]. split.
  - intros q Hq. by rewrite Hf2, Hf1.
  - intros q Hq Hwr. auto.
Qed.

Lemma open_w_spec p n n1 :
  os.open_w p n = Ok n1 → file_written p [] n n1.
Proof.
  intros Hop.
  split; [|split; intros q Hq; [by eapply update_path_frame|by eapply open_w_frame]].
  destruct (update_path_stat _ _ _ _ _ Hop) as (new & -> & [(old & _ & Hch)|[_ Hcr]]).
  - destruct old; [|done]. by injection Hch as <-.
  - by injection Hcr as <-.
Qed.

Lemma write_record_spec rec p n rs :
  os.stat p n = Ok (File (CsvText rs)) →
  ∃ n', os.write_record rec p n = Ok n' ∧ file_written p (rs ++ [rec]) n n'.
Proof.
  intros Hst.
  destruct (update_path_present None
              (fun n => match n with
                        | File (CsvText rs) => mret (File (CsvText (rs ++ [rec])))
                        | File _ => mret (File (CsvText [rec]))
                        | Dir _ => Raise IsADirectoryError
                        end) p n _ _ Hst eq_refl) as [n' Hn'].
  exists n'. split; [done|].
  split; [|split; intros q Hq; [by eapply update_path_frame|by eapply open_w_frame]].
  destruct (update_path_stat _ _ _ _ _ Hn') as (new & -> & [(old & Hold & Hch)|[_ Hcr]]); [|done].
  rewrite Hst in Hold. injection Hold as <-. by injection Hch as <-.
Qed.

Lemma writerow_spec (csvfile : Path) fieldnames rowdict rec w rs :
  csv.dict_to_list fieldnames rowdict = Ok rec →
  os.stat (os_path csvfile) (fs w) = Ok (File (CsvText rs)) →
  ∃ n', writerow csvfile fieldnames rowdict w = (Ok tt, World n' (console w)) ∧
        file_written (os_path csvfile) (rs ++ [rec]) (fs w) n'.
Proof.
  intros Hrec Hst. unfold writerow, fs_write. rewrite Hrec.
  destruct (write_record_spec rec _ _ _ Hst) as (n' & -> & Hw). eauto.
Qed.

(** The loop of lines 59-64 appends one record per sample, in order. *)
Lemma writerows_spec (csvfile : Path) fieldnames (samples : list Element) w rs :
  (∀ s, s ∈ samples →
     csv.dict_to_list fieldnames (build_row s) = Ok (row_record fieldnames s)) →
  os.stat (os_path csvfile) (fs w) = Ok (File (CsvText rs)) →
  ∃ n', for_each samples
          (fun sample => writerow csvfile fieldnames (build_row sample)) w
        = (Ok tt, World n' (console w)) ∧
        file_written (os_path csvfile)
          (rs ++ map (row_record fieldnames) samples) (fs w) n'.
Proof.
  revert w rs. induction samples as [|s samples IH]; intros w rs Hok Hst.
  - exists (fs w). cbn [for_each map]. rewrite app_nil_r.
    destruct w; split; [done|]. by repeat split.
  - cbn [for_each map]. unfold mbind, M_bind. cbn zeta.
    destruct (writerow_spec csvfile fieldnames (build_row s) _ w rs
                (Hok s ltac:(left)) Hst) as (n1 & -> & Hw1).
    destruct (IH (World n1 (console w)) (rs ++ [row_record fieldnames s]))
      as (n' & Hrun & Hw').
    + intros s' Hs'. apply Hok. by right.
    + apply Hw1.
    + exists n'. cbn [console fs] in *. split; [done|].
      rewrite <- app_assoc in Hw'. by eapply file_written_trans.
Qed.

(** What a conversion that finds samples and can open its output does.  The
    file is complete and closed before the first line is printed.  The three
    lines of the report are printed when both paths can be encoded; when the
    first of them cannot, the [UnicodeEncodeError] of line 66 goes to the
    handler of line 73. *)
Lemma xml_to_csv_converts (xml_file_path csv_file_path : Path) w root sample0 remaining n1 :
  ET.parse (os_path xml_file_path) (fs w) = Ok root →
  ET.findall_descendants "Sample" root = sample0 :: remaining →
  os.open_w (os_path csv_file_path) (fs w) = Ok n1 →
  let samples := sample0 :: remaining in
  let field_names := collect_field_names samples in
  ∃ n', xml_to_csv xml_file_path csv_file_path w =
          (if encodable_path xml_file_path && encodable_path csv_file_path
           then (Ok tt, World n' (console w ++
                           [SuccessfullyConverted xml_file_path csv_file_path;
                            FoundSamples (length samples);
                            CreatedColumns (length field_names)]))
           else print (ErrorProcessing xml_file_path UnicodeEncodeError)
                  (World n' (console w))) ∧
        file_written (os_path csv_file_path)
          (field_names :: map (row_record field_names) samples) (fs w) n'.
Proof.
  intros Hparse Hfind Hopen samples field_names.
  unfold xml_to_csv, try_except, mbind, M_bind, fs_read. rewrite Hparse, Hfind.
  fold samples. fold field_names. unfold fs_write at 1. rewrite Hopen.
  pose proof (open_w_spec _ _ _ Hopen) as Hw0.
  destruct (writerow_spec csv_file_path field_names (csv.header field_names)
              field_names (World n1 (console w)) [] (header_record _) (proj1 Hw0))
    as (n2 & -> & Hw2).
  cbn [fs console] in *.
  destruct (writerows_spec csv_file_path field_names samples
              (World n2 (console w)) [field_names]) as (n3 & -> & Hw3).
  { intros s Hs. by apply sample_record. }
  { apply Hw2. }
  exists n3. cbn [fs console] in *. split.
  - unfold print. cbn [line_encodable fs console].
    destruct (encodable_path xml_file_path && encodable_path csv_file_path);
      [|done].
    cbn [fs console]. by rewrite <- !app_assoc.
  - eapply file_written_trans; [exact Hw0|].
    eapply file_written_trans; [exact Hw2|]. exact Hw3.
Qed.
End writing.

(** ** The outcomes of a conversion *)

Section conversion.
Implicit Types (p : list string) (n : node) (w : world).

Lemma update_path_raises create change p n e :
  os.update_path create change p n = Raise e →
  e = NotADirectoryError ∨ e = FileNotFoundError ∨ ∃ old, change old = Raise e.
Proof.
  revert n. induction p as [|x p IH]; intros n; cbn [os.update_path].
  - eauto.
  - destruct n as [c|es]; [intros [= <-]; auto|].
    destruct (es !! x) as [nx|].
    + destruct (os.update_path create change p nx) as [nx'|e'] eqn:Hnx; [done|].
      intros [= <-]. eauto.
    + destruct p as [|? ?]; [destruct create|]; (done || intros [= <-]; auto).
Qed.

Lemma open_w_raises p n e : os.open_w p n = Raise e → e ≠ ParseError.
Proof.
  intros [->| [->|[old Hold]]]%update_path_raises; [done..|].
  destruct old; [done|]. by injection Hold as <-.
Qed.

(** The handler that takes an exception of the parse step: the
    [except ET.ParseError] clause comes first, [except Exception] takes the
    rest.  The exception has left the [try] block, so what the handler's own
    [print] raises leaves the function. *)
Lemma xml_to_csv_parse_raises (xml_file_path csv_file_path : Path) w e :
  ET.parse (os_path xml_file_path) (fs w) = Raise e →
  xml_to_csv xml_file_path csv_file_path w =
    print (match e with
           | ParseError => ErrorParsing xml_file_path
           | _ => ErrorProcessing xml_file_path e
           end) w.
Proof.
  intros Hparse. unfold xml_to_csv, try_except, mbind, M_bind, fs_read.
  rewrite Hparse. by destruct e.
Qed.

(** The warning of line 31 is printed inside the [try] block: when it cannot
    be encoded the handler of line 73 prints the same path, and fails as
    well. *)
Lemma xml_to_csv_no_samples (xml_file_path csv_file_path : Path) w root :
  ET.parse (os_path xml_file_path) (fs w) = Ok root →
  ET.findall_descendants "Sample" root = [] →
  xml_to_csv xml_file_path csv_file_path w = print (WarningNoSamples xml_file_path) w.
Proof.
  intros Hparse Hfind. unfold xml_to_csv, try_except, mbind, M_bind, fs_read.
  rewrite Hparse, Hfind. unfold print. cbn [line_encodable].
  by destruct (encodable_path xml_file_path).
Qed.

Lemma xml_to_csv_open_raises (xml_file_path csv_file_path : Path) w root sample0 remaining e :
  ET.parse (os_path xml_file_path) (fs w) = Ok root →
  ET.findall_descendants "Sample" root = sample0 :: remaining →
  os.open_w (os_path csv_file_path) (fs w) = Raise e →
  xml_to_csv xml_file_path csv_file_path w =
    print (ErrorProcessing xml_file_path e) w.
Proof.
  intros Hparse Hfind Hopen.
  unfold xml_to_csv, try_except, mbind, M_bind, fs_read, fs_write.
  rewrite Hparse, Hfind, Hopen.
  apply open_w_raises in Hopen. by destruct e.
Qed.

(** The conversion returns normally exactly when the path of its input can
    be encoded: every exception of the [try] block reaches a handler, and
    the one thing a handler does is print that path. *)
Lemma xml_to_csv_result (xml_file_path csv_file_path : Path) w :
  (xml_to_csv xml_file_path csv_file_path w).1 =
    if encodable_path xml_file_path then Ok tt else Raise UnicodeEncodeError.
Proof.
  destruct (ET.parse (os_path xml_file_path) (fs w)) as [root|e] eqn:Hparse.
  2:{ rewrite (xml_to_csv_parse_raises _ _ _ _ Hparse), print_result. by destruct e. }
  destruct (ET.findall_descendants "Sample" root) as [|sample0 remaining] eqn:Hfind.
  { by rewrite (xml_to_csv_no_samples _ _ _ _ Hparse Hfind), print_result. }
  destruct (os.open_w (os_path csv_file_path) (fs w)) as [n1|e] eqn:Hopen.
  2:{ by rewrite (xml_to_csv_open_raises _ _ _ _ _ _ _ Hparse Hfind Hopen), print_result. }
  destruct (xml_to_csv_converts _ _ _ _ _ _ _ Hparse Hfind Hopen) as (n' & -> & _).
  destruct (encodable_path xml_file_path) eqn:Hxml; cbn [andb].
  - destruct (encodable_path csv_file_path); [done|].
    rewrite print_result. cbn [line_encodable]. by rewrite Hxml.
  - rewrite print_result. cbn [line_encodable]. by rewrite Hxml.
Qed.

(** A conversion leaves the file system as it was or leaves its output
    written. *)
Lemma xml_to_csv_fs (xml_file_path csv_file_path : Path) w :
  fs (xml_to_csv xml_file_path csv_file_path w).2 = fs w ∨
  ∃ recs, file_written (os_path csv_file_path) recs (fs w)
            (fs (xml_to_csv xml_file_path csv_file_path w).2).
Proof.
  destruct (ET.parse (os_path xml_file_path) (fs w)) as [root|e] eqn:Hparse.
  2:{ left. by rewrite (xml_to_csv_parse_raises _ _ _ _ Hparse), print_fs. }
  destruct (ET.findall_descendants "Sample" root) as [|sample0 remaining] eqn:Hfind.
  { left. by rewrite (xml_to_csv_no_samples _ _ _ _ Hparse Hfind), print_fs. }
  destruct (os.open_w (os_path csv_file_path) (fs w)) as [n1|e] eqn:Hopen.
  2:{ left. by rewrite (xml_to_csv_open_raises _ _ _ _ _ _ _ Hparse Hfind Hopen), print_fs. }
  destruct (xml_to_csv_converts _ _ _ _ _ _ _ Hparse Hfind Hopen) as (n' & -> & Hw).
  right. eexists.
  destruct (encodable_path xml_file_path && encodable_path csv_file_path);
    [|rewrite print_fs]; exact Hw.
Qed.

(** The output of a conversion that finds samples and can open its output,
    whatever becomes of the report. *)
Lemma xml_to_csv_output (xml_file_path csv_file_path : Path) w root sample0 remaining n1 :
  ET.parse (os_path xml_file_path) (fs w) = Ok root →
  ET.findall_descendants "Sample" root = sample0 :: remaining →
  os.open_w (os_path csv_file_path) (fs w) = Ok n1 →
  let samples := sample0 :: remaining in
  let field_names := collect_field_names samples in
  file_written (os_path csv_file_path)
    (field_names :: map (row_record field_names) samples) (fs w)
    (fs (xml_to_csv xml_file_path csv_file_path w).2).
Proof.
  intros Hparse Hfind Hopen samples field_names.
  destruct (xml_to_csv_converts _ _ _ _ _ _ _ Hparse Hfind Hopen) as (n' & -> & Hw).
  destruct (encodable_path xml_file_path && encodable_path csv_file_path);
    [|rewrite print_fs]; exact Hw.
Qed.


(** The body of the loop, step by step: line 106 is under no [try]. *)
Lemma process_file_steps (csv_dir xml_file : Path) w :
  process_file csv_dir xml_file w =
    if Str.encodable (name xml_file)
    then (xml_to_csv xml_file (joinpath csv_dir (stem xml_file +:+ ".csv")) ;;
          print Blank)
           (World (fs w) (console w ++ [Processing (name xml_file)]))
    else (Raise UnicodeEncodeError, w).
Proof.
  unfold process_file. cbn zeta. unfold mbind at 1, M_bind at 1. unfold print at 1.
  cbn [line_encodable]. by destruct (Str.encodable (name xml_file)).
Qed.

Lemma process_file_result (csv_dir xml_file : Path) w :
  (process_file csv_dir xml_file w).1 =
    if encodable_path xml_file then Ok tt else Raise UnicodeEncodeError.
Proof.
  rewrite process_file_steps.
  destruct (Str.encodable (name xml_file)) eqn:Hname.
  - unfold mbind, M_bind.
    pose proof (xml_to_csv_result xml_file
                  (joinpath csv_dir (stem xml_file +:+ ".csv"))
                  (World (fs w) (console w ++ [Processing (name xml_file)]))) as Hr.
    destruct (xml_to_csv _ _ _) as [[[]|e] w1]; cbn [fst] in Hr; [|exact Hr].
    by rewrite <- Hr, print_result.
  - destruct (encodable_path xml_file) eqn:Hf; [|done].
    apply encodable_path_name in Hf. congruence.
Qed.

Lemma process_file_fs (csv_dir xml_file : Path) w :
  fs (process_file csv_dir xml_file w).2 = fs w ∨
  ∃ recs, file_written (os_path (joinpath csv_dir (stem xml_file +:+ ".csv"))) recs
            (fs w) (fs (process_file csv_dir xml_file w).2).
Proof.
  rewrite process_file_steps. destruct (Str.encodable (name xml_file)); [|by left].
  unfold mbind, M_bind.
  pose proof (xml_to_csv_fs xml_file (joinpath csv_dir (stem xml_file +:+ ".csv"))
                (World (fs w) (console w ++ [Processing (name xml_file)]))) as Hfs.
  destruct (xml_to_csv _ _ _) as [[[]|e] w1]; cbn [snd fs] in Hfs |- *;
    [rewrite print_fs|]; exact Hfs.
Qed.

(** The output of a file that is announced, has samples and can open its
    output. *)
Lemma process_file_output (csv_dir xml_file : Path) w root sample0 remaining n1 :
  let csv_file_path := joinpath csv_dir (stem xml_file +:+ ".csv") in
  let samples := sample0 :: remaining in
  let field_names := collect_field_names samples in
  Str.encodable (name xml_file) = true →
  ET.parse (os_path xml_file) (fs w) = Ok root →
  ET.findall_descendants "Sample" root = samples →
  os.open_w (os_path csv_file_path) (fs w) = Ok n1 →
  file_written (os_path csv_file_path)
    (field_names :: map (row_record field_names) samples) (fs w)
    (fs (process_file csv_dir xml_file w).2).
Proof.
  intros csv_file_path samples field_names Hname Hparse Hfind Hopen.
  rewrite process_file_steps, Hname. unfold mbind, M_bind.
  pose proof (xml_to_csv_output xml_file csv_file_path
                (World (fs w) (console w ++ [Processing (name xml_file)]))
                root sample0 remaining n1 Hparse Hfind Hopen) as Hw.
  cbn zeta in Hw. fold csv_file_path.
  destruct (xml_to_csv _ _ _) as [[[]|e] w1]; cbn [snd fs] in Hw |- *;
    [rewrite print_fs|]; exact Hw.
Qed.

(** Processing a file changes nothing at a path that diverges from the
    file's output path, and keeps such a path writable. *)
Lemma process_file_frame (csv_dir xml_file : Path) w q :
  diverge (os_path (joinpath csv_dir (stem xml_file +:+ ".csv"))) q →
  os.stat q (fs (process_file csv_dir xml_file w).2) = os.stat q (fs w) ∧
  (writable q (fs w) → writable q (fs (process_file csv_dir xml_file w).2)).
Proof.
  intros Hq.
  destruct (process_file_fs csv_dir xml_file w) as [->|[recs (_ & Hf & Hk)]];
    [done|]. split; auto.
Qed.

(** What every step of a loop keeps, the loop keeps, however it ends. *)
Lemma for_each_preserves {A} (R : world → world → Prop) (l : list A)
    (body : A → M unit) w :
  (∀ w, R w w) → (∀ w1 w2 w3, R w1 w2 → R w2 w3 → R w1 w3) →
  (∀ x w, x ∈ l → R w (body x w).2) →
  R w (for_each l body w).2.
Proof.
  intros Hrefl Htrans. revert w.
  induction l as [|x l IH]; intros w Hbody; cbn [for_each]; [apply Hrefl|].
  unfold mbind, M_bind. pose proof (Hbody x w ltac:(left)) as Hx.
  destruct (body x w) as [[[]|e] w1]; cbn [snd] in Hx; [|exact Hx].
  eapply Htrans; [exact Hx|]. apply IH. intros y w' Hy. apply Hbody. by right.
Qed.

(** The loop of [main] runs to its end exactly when the path of every file
    can be encoded. *)
Lemma for_each_process_file_result (csv_dir : Path) (xml_files : list Path) w :
  (for_each xml_files (process_file csv_dir) w).1 =
    if forallb encodable_path xml_files then Ok tt else Raise UnicodeEncodeError.
Proof.
  revert w. induction xml_files as [|f files IH]; intros w; [done|].
  cbn [for_each forallb]. unfold mbind, M_bind.
  pose proof (process_file_result csv_dir f w) as Hf.
  destruct (process_file csv_dir f w) as [[[]|e] w1]; cbn [fst] in Hf.
  - destruct (encodable_path f); [apply IH|done].
  - by destruct (encodable_path f).
Qed.

Lemma for_each_process_file_frame (csv_dir : Path) (xml_files : list Path) w q :
  (∀ f, f ∈ xml_files →
        diverge (os_path (joinpath csv_dir (stem f +:+ ".csv"))) q) →
  os.stat q (fs (for_each xml_files (process_file csv_dir) w).2) = os.stat q (fs w) ∧
  (writable q (fs w) →
   writable q (fs (for_each xml_files (process_file csv_dir) w).2)).
Proof.
  intros Hq.
  apply (for_each_preserves
           (fun w w' => os.stat q (fs w') = os.stat q (fs w) ∧
                        (writable q (fs w) → writable q (fs w')))).
  - done.
  - intros w1 w2 w3 [H1 K1] [H2 K2]. split; [by rewrite H2|auto].
  - intros f w0 Hf. apply process_file_frame. by apply Hq.
Qed.

(** The loop changes nothing outside the output directory. *)
Lemma for_each_process_file_outside (csv_dir : Path) (xml_files : list Path) w q :
  (∀ out, diverge (os_path (joinpath csv_dir out)) q) →
  os.stat q (fs (for_each xml_files (process_file csv_dir) w).2) = os.stat q (fs w).
Proof. intros Hq. apply for_each_process_file_frame. intros f _. apply Hq. Qed.

(** A loop over files whose paths can be encoded. *)
Lemma for_each_process_file_returns (csv_dir : Path) (xml_files : list Path) w :
  (∀ f, f ∈ xml_files → encodable_path f = true) →
  ∃ w', for_each xml_files (process_file csv_dir) w = (Ok tt, w') ∧
        ∀ q, (∀ out, diverge (os_path (joinpath csv_dir out)) q) →
             os.stat q (fs w') = os.stat q (fs w).
Proof.
  intros Henc.
  pose proof (for_each_process_file_result csv_dir xml_files w) as Hr.
  pose proof (for_each_process_file_outside csv_dir xml_files w) as Hf.
  rewrite (proj2 (forallb_forall _ _)) in Hr
    by (intros f Hf'; apply Henc; by apply list_elem_of_In).
  destruct (for_each xml_files (process_file csv_dir) w) as [r w']. cbn [fst snd] in *.
  subst r. by exists w'.
Qed.
End conversion.

(** ** Making the output directory *)

Section making_directories.
Implicit Types (p q : list string) (n : node).

Lemma stat_app p q n : os.stat (p ++ q) n = os.stat p n ≫= os.stat q.
Proof.
  revert n. induction p as [|x p IH]; intros n; [done|]. cbn [app os.stat].
  destruct n as [c|es]; [done|]. destruct (es !! x); [apply IH|done].
Qed.

(** Whatever is found at a path, its parent is a directory. *)
Lemma stat_parent p x n c :
  os.stat (p ++ [x]) n = Ok c → ∃ es, os.stat p n = Ok (Dir es).
Proof.
  rewrite stat_app. destruct (os.stat p n) as [d|e]; [|done].
  destruct d as [?|es]; [done|]. eauto.
Qed.

Lemma os_mkdir_is_dir p n n' :
  os.mkdir p n = Ok n' → os.stat p n' = Ok (Dir ∅).
Proof.
  intros Hmk.
  destruct (update_path_stat _ _ _ _ _ Hmk) as (new & -> & [(old & _ & Hch)|[_ Hcr]]);
    [done|]. by injection Hcr as <-.
Qed.

Lemma mkdir_here_is_dir exist_ok (p : Path) n n' :
  mkdir_here exist_ok p n = Ok n' → is_dir p n' = true.
Proof.
  unfold mkdir_here. destruct (os.mkdir (os_path p) n) as [n1|e] eqn:Hmk.
  - intros [= <-]. unfold is_dir. by rewrite (os_mkdir_is_dir _ _ _ Hmk).
  - destruct exist_ok, (is_dir p n) eqn:Hd, e; cbn; try done; by intros [= <-].
Qed.

Lemma mkdir_parents_is_dir exist_ok (p : Path) n n' :
  mkdir_parents exist_ok p n = Ok n' → is_dir p n' = true.
Proof.
  destruct p as [|x p]; cbn [mkdir_parents];
    destruct (os.mkdir _ n) as [n1|e] eqn:Hmk.
  - intros [= <-]. unfold is_dir. by rewrite (os_mkdir_is_dir _ _ _ Hmk).
  - destruct exist_ok, (is_dir [] n) eqn:Hd, e; cbn; try done; by intros [= <-].
  - intros [= <-]. unfold is_dir. by rewrite (os_mkdir_is_dir _ _ _ Hmk).
  - destruct e; cbn;
      try (destruct exist_ok, (is_dir (x :: p) n) eqn:Hd; cbn; try done;
           by intros [= <-]).
    destruct (mkdir_parents true p n) as [n1|e1]; [|done]. cbn.
    apply mkdir_here_is_dir.
Qed.

Lemma is_dir_parent (p : Path) x n :
  is_dir (joinpath p x) n = true → is_dir p n = true.
Proof.
  unfold is_dir, joinpath, os_path. cbn [rev].
  destruct (os.stat (rev p ++ [x]) n) as [c|e] eqn:Hst; [|done].
  destruct (stat_parent _ _ _ _ Hst) as [es ->]. done.
Qed.

Lemma is_dir_exists (p : Path) n : is_dir p n = true → exists_ p n = true.
Proof.
  unfold is_dir, exists_. by destruct (os.stat (os_path p) n).
Qed.

(** A fresh name in a directory that is there: the directory is made. *)
Lemma os_mkdir_fresh p x n es :
  os.stat p n = Ok (Dir es) → es !! x = None →
  ∃ n', os.mkdir (p ++ [x]) n = Ok n' ∧
        os.stat p n' = Ok (Dir (<[x := Dir ∅]> es)).
Proof.
  unfold os.mkdir.
  revert n. induction p as [|y p IH]; intros n Hst Hx; cbn [os.stat app] in *.
  - injection Hst as ->. cbn [os.update_path]. rewrite Hx. cbn. eauto.
  - destruct n as [c|es0]; [done|]. cbn [os.update_path].
    destruct (es0 !! y) as [ny|] eqn:Hy; [|done].
    destruct (IH ny Hst Hx) as (ny' & -> & Hst'). cbn.
    eexists. split; [done|]. cbn [os.stat]. by rewrite lookup_insert_eq.
Qed.

(** A path two levels below a missing name: ENOENT. *)
Lemma os_mkdir_missing_parent p x y n es :
  os.stat p n = Ok (Dir es) → es !! x = None →
  os.mkdir (p ++ [x; y]) n = Raise FileNotFoundError.
Proof.
  unfold os.mkdir.
  revert n. induction p as [|z p IH]; intros n Hst Hx; cbn [os.stat app] in *.
  - injection Hst as ->. cbn [os.update_path]. by rewrite Hx.
  - destruct n as [c|es0]; [done|]. cbn [os.update_path].
    destruct (es0 !! z) as [nz|] eqn:Hz; [|done].
    by rewrite (IH nz Hst Hx).
Qed.
End making_directories.

(** ** The driver *)

Section driver.
Implicit Types (w : world) (n : node) (l : line).

Lemma print_adds l w :
  is_directory_error l = false → adds_no_directory_error (print l) w.
Proof.
  intros Hl. unfold adds_no_directory_error. rewrite print_console.
  eexists. split; [done|]. destruct (line_encodable l); by repeat constructor.
Qed.

Lemma xml_to_csv_console (xml_file_path csv_file_path : Path) w :
  adds_no_directory_error (xml_to_csv xml_file_path csv_file_path) w.
Proof.
  unfold adds_no_directory_error.
  destruct (ET.parse (os_path xml_file_path) (fs w)) as [root|e] eqn:Hparse.
  2:{ rewrite (xml_to_csv_parse_raises _ _ _ _ Hparse). apply print_adds.
      by destruct e. }
  destruct (ET.findall_descendants "Sample" root) as [|sample0 remaining] eqn:Hfind.
  { rewrite (xml_to_csv_no_samples _ _ _ _ Hparse Hfind). by apply print_adds. }
  destruct (os.open_w (os_path csv_file_path) (fs w)) as [n1|e] eqn:Hopen.
  2:{ rewrite (xml_to_csv_open_raises _ _ _ _ _ _ _ Hparse Hfind Hopen).
      by apply print_adds. }
  destruct (xml_to_csv_converts _ _ _ _ _ _ _ Hparse Hfind Hopen) as (n' & -> & _).
  destruct (encodable_path xml_file_path && encodable_path csv_file_path).
  - eexists. split; [done|]. by repeat constructor.
  - by apply (print_adds _ (World n' (console w))).
Qed.

Lemma process_file_console (csv_dir xml_file : Path) w :
  adds_no_directory_error (process_file csv_dir xml_file) w.
Proof.
  unfold adds_no_directory_error. rewrite process_file_steps.
  destruct (Str.encodable (name xml_file)).
  2:{ exists []. by rewrite app_nil_r. }
  unfold mbind, M_bind.
  destruct (xml_to_csv_console xml_file (joinpath csv_dir (stem xml_file +:+ ".csv"))
              (World (fs w) (console w ++ [Processing (name xml_file)])))
    as (lines & Hc & Hl).
  destruct (xml_to_csv _ _ _) as [[[]|e] w1]; cbn [snd console] in Hc |- *.
  - rewrite print_console, Hc. cbn [line_encodable].
    exists ([Processing (name xml_file)] ++ lines ++ [Blank]).
    split; [by rewrite <- !app_assoc|].
    apply Forall_app. split; [by repeat constructor|].
    apply Forall_app. split; [done|by repeat constructor].
  - rewrite Hc. exists ([Processing (name xml_file)] ++ lines).
    split; [by rewrite <- !app_assoc|].
    apply Forall_app. split; [by repeat constructor|done].
Qed.

Lemma for_each_process_file_console (csv_dir : Path) (xml_files : list Path) w :
  adds_no_directory_error (for_each xml_files (process_file csv_dir)) w.
Proof.
  apply (for_each_preserves
           (fun w w' => ∃ lines, console w' = console w ++ lines ∧
                          Forall (fun l => is_directory_error l = false) lines)).
  - intros w0. exists []. by rewrite app_nil_r.
  - intros w1 w2 w3 (l1 & Hc1 & Hl1) (l2 & Hc2 & Hl2). exists (l1 ++ l2).
    split; [by rewrite Hc2, Hc1, app_assoc|by apply Forall_app].
  - intros f w0 _. apply process_file_console.
Qed.

(** The test of line 87 never fails once the directory has been made. *)
Lemma xml_dir_exists_after_mkdir (script_dir : Path) n n' :
  pathlib.mkdir true true (joinpath (joinpath script_dir "xml") "csv") n = Ok n' →
  is_dir (joinpath (joinpath script_dir "xml") "csv") n' = true ∧
  is_dir (joinpath script_dir "xml") n' = true ∧
  exists_ (joinpath script_dir "xml") n' = true.
Proof.
  unfold pathlib.mkdir. intros Hmk%mkdir_parents_is_dir.
  split; [done|]. apply is_dir_parent in Hmk. split; [done|].
  by apply is_dir_exists.
Qed.

(** The driver, step by step: the directory is made or the run ends with
    the exception; then the files found are processed. *)
Lemma main_steps (script_dir : Path) w :
  main script_dir w =
    match pathlib.mkdir true true (joinpath (joinpath script_dir "xml") "csv") (fs w) with
    | Raise e => (Raise e, w)
    | Ok n' =>
        match glob_suffix ".xml" (joinpath script_dir "xml") n' with
        | [] => print (NoXmlFilesFound (joinpath script_dir "xml"))
                  (World n' (console w))
        | f :: files =>
            for_each (f :: files)
              (process_file (joinpath (joinpath script_dir "xml") "csv"))
              (World n' (console w ++ [FoundXmlFiles (length (f :: files))]))
        end
    end.
Proof.
  unfold main, mbind, M_bind, fs_write, fs_read.
  destruct (pathlib.mkdir true true _ (fs w)) as [n'|e] eqn:Hmk; [|done].
  cbn [fs console mret M_ret result_ret].
  destruct (xml_dir_exists_after_mkdir script_dir _ _ Hmk) as (_ & _ & ->).
  cbn [negb fs]. by destruct (glob_suffix ".xml" _ n').
Qed.
End driver.

(** ** Batches *)

Section batches.
Implicit Types (w : world) (n : node).

Lemma for_each_app {A} (l1 l2 : list A) (body : A → M unit) w :
  for_each (l1 ++ l2) body w = (for_each l1 body ;; for_each l2 body) w.
Proof.
  revert w. induction l1 as [|x l1 IH]; intros w; [done|].
  cbn [app for_each]. unfold mbind, M_bind in *.
  destruct (body x w) as [[[]|e] w1]; [apply IH|done].
Qed.

(** Reading a file only depends on what [stat] finds at its path. *)
Lemma parse_frame (p : list string) n n' :
  os.stat p n' = os.stat p n → ET.parse p n' = ET.parse p n.
Proof. unfold ET.parse. by intros ->. Qed.

(** A name that [glob('*.xml')] matched is not the name of the output
    directory, so no output path is an ancestor or a descendant of an input
    path. *)
Lemma input_diverges_from_outputs (script_dir : Path) (xml_name out : string) :
  Str.endswith ".xml" xml_name = true →
  diverge (os_path (joinpath (joinpath (joinpath script_dir "xml") "csv") out))
          (os_path (joinpath (joinpath script_dir "xml") xml_name)).
Proof.
  intros Hend. unfold os_path, joinpath. cbn [rev]. rewrite <- !app_assoc.
  apply diverge_app. cbn. right. left. by intros <-.
Qed.
End batches.

(** ** Output file names *)

Section file_names.
Implicit Types (base s : string) (i : Z).

Lemma append_nil s : "" +:+ s = s.
Proof. reflexivity. Qed.

Lemma append_cons a base s : String a base +:+ s = String a (base +:+ s).
Proof. reflexivity. Qed.

Lemma rfind_from_xml base i :
  0 ≤ i → Str.rfind_from "." (base +:+ ".xml") i = i + Z.of_nat (String.length base).
Proof.
  revert i. induction base as [|a base IH]; intros i Hi.
  - rewrite append_nil. unfold Str.rfind_from.
    cbn [Z.leb Z.compare Ascii.eqb Bool.eqb String.length]. lia.
  - rewrite append_cons. cbn [Str.rfind_from String.length]. rewrite IH by lia.
    destruct (Z.leb_spec 0 (i + 1 + Z.of_nat (String.length base))); lia.
Qed.

Lemma substring_append base s :
  String.substring 0 (String.length base) (base +:+ s) = base.
Proof.
  induction base as [|a base IH].
  - rewrite append_nil. by destruct s.
  - rewrite append_cons. cbn. by rewrite IH.
Qed.

Lemma length_append base s :
  String.length (base +:+ s) = (String.length base + String.length s)%nat.
Proof.
  induction base as [|a base IH]; [done|].
  rewrite append_cons. cbn. by rewrite IH.
Qed.

(** [stem] takes the [.xml] off every name that has something before it. *)
Lemma stem_xml (dir : Path) base :
  base ≠ "" → stem (joinpath dir (base +:+ ".xml")) = base.
Proof.
  intros Hbase. unfold stem, joinpath, name, Str.rfind. cbn [List.hd].
  rewrite rfind_from_xml by done. rewrite length_append. cbn [String.length].
  assert (0 < String.length base)%nat by (destruct base; [done|cbn; lia]).
  destruct (Z.ltb_spec 0 (0 + Z.of_nat (String.length base))); [|lia].
  destruct (Z.ltb_spec (0 + Z.of_nat (String.length base))
              (Z.of_nat (String.length base + 4) - 1)); [|lia].
  cbn [andb]. rewrite Z.add_0_l, Nat2Z.id. apply substring_append.
Qed.

Lemma append_inj_r base1 base2 s : base1 +:+ s = base2 +:+ s → base1 = base2.
Proof.
  revert base2. induction base1 as [|a base1 IH]; intros [|b base2] Heq; [done|..].
  - apply (f_equal String.length) in Heq.
    rewrite !length_append in Heq. cbn in Heq. lia.
  - apply (f_equal String.length) in Heq.
    rewrite !length_append in Heq. cbn in Heq. lia.
  - rewrite !append_cons in Heq. injection Heq as -> Heq. f_equal. by apply IH.
Qed.

Lemma endswith_spec suffix s :
  Str.endswith suffix s = true → ∃ base, s = base +:+ suffix.
Proof.
  induction s as [|a s IH]; cbn [Str.endswith].
  - rewrite orb_false_r. intros ->%String.eqb_eq. by exists "".
  - intros [->%String.eqb_eq|[base ->]%IH]%orb_true_iff.
    + by exists "".
    + by exists (String a base).
Qed.

(** Every file the driver matches has a name [base.xml]. *)
Lemma glob_suffix_names suffix (dir : Path) (n : node) (f : Path) :
  f ∈ glob_suffix suffix dir n → ∃ base, f = joinpath dir (base +:+ suffix).
Proof.
  unfold glob_suffix. destruct (os.scandir (os_path dir) n) as [names|e].
  - intros Hf. apply list_elem_of_In, in_map_iff in Hf as (nm & <- & Hnm).
    apply list_elem_of_In, list_elem_of_filter in Hnm as [Hend _].
    apply Is_true_true, endswith_spec in Hend as [base ->]. eauto.
  - intros Hf. by apply elem_of_nil in Hf.
Qed.

(** Apart from the file named [.xml], the output name is the input name with
    [.xml] replaced by [.csv], and distinct inputs have distinct outputs. *)
Lemma csv_filename_correct (dir : Path) (n : node) (f : Path) :
  f ∈ glob_suffix ".xml" dir n → name f ≠ ".xml" →
  ∃ base, name f = base +:+ ".xml" ∧ stem f +:+ ".csv" = base +:+ ".csv".
Proof.
  intros [base ->]%glob_suffix_names Hname. exists base. split; [done|].
  rewrite stem_xml; [done|]. intros ->. by apply Hname.
Qed.

Lemma csv_filename_injective (dir : Path) (n : node) (f1 f2 : Path) :
  f1 ∈ glob_suffix ".xml" dir n → f2 ∈ glob_suffix ".xml" dir n →
  name f1 ≠ ".xml" → name f2 ≠ ".xml" →
  stem f1 +:+ ".csv" = stem f2 +:+ ".csv" → f1 = f2.
Proof.
  intros [b1 ->]%glob_suffix_names [b2 ->]%glob_suffix_names H1 H2.
  rewrite !stem_xml.
  - by intros ->%append_inj_r.
  - intros ->. by apply H2.
  - intros ->. by apply H1.
Qed.
End file_names.

(** ** Collected samples *)

Section collected.
Implicit Types (t : string) (e root : Element).

(** The collected elements are those of the children's pre-orders: every
    proper descendant with the tag, in document order. *)
Lemma findall_descendants_children t root :
  ET.findall_descendants t root = flat_map (ET.iter_tag t) (children root).
Proof.
  unfold ET.findall_descendants, ET.iter_tag. destruct root as [t0 x cs].
  cbn [ET.iter List.tl children]. induction cs as [|c cs IH]; [done|].
  cbn [flat_map]. by rewrite filter_app, IH.
Qed.

(** The root is the one element with the tag that is left out. *)
Lemma iter_tag_root t root :
  ET.iter_tag t root =
    (if decide (tag root = t) then [root] else []) ++ ET.findall_descendants t root.
Proof.
  unfold ET.findall_descendants, ET.iter_tag. destruct root as [t0 x cs].
  cbn [ET.iter List.tl]. rewrite filter_cons. by destruct (decide _).
Qed.
End collected.

(** ** The scenario of the specification: three files, the second malformed *)

Section isolation.
Implicit Types (w : world) (n : node).

Lemma process_file_converts (csv_dir xml_file : Path) w root sample0 remaining n1 :
  let csv_file_path := joinpath csv_dir (stem xml_file +:+ ".csv") in
  let samples := sample0 :: remaining in
  let field_names := collect_field_names samples in
  encodable_path xml_file = true →
  ET.parse (os_path xml_file) (fs w) = Ok root →
  ET.findall_descendants "Sample" root = samples →
  os.open_w (os_path csv_file_path) (fs w) = Ok n1 →
  ∃ w', process_file csv_dir xml_file w = (Ok tt, w') ∧
        file_written (os_path csv_file_path)
          (field_names :: map (row_record field_names) samples) (fs w) (fs w').
Proof.
  intros csv_file_path samples field_names Henc Hparse Hfind Hopen.
  rewrite process_file_steps, (encodable_path_name _ Henc).
  unfold mbind, M_bind.
  destruct (xml_to_csv_converts xml_file csv_file_path
              (World (fs w) (console w ++ [Processing (name xml_file)]))
              root sample0 remaining n1 Hparse Hfind Hopen) as (n' & Hrun & Hw).
  fold csv_file_path. rewrite Hrun, Henc. cbn [andb fs console].
  destruct (encodable_path csv_file_path).
  - eexists. split; [done|]. exact Hw.
  - rewrite print_encodable by exact Henc. eexists. split; [done|]. exact Hw.
Qed.

Lemma process_file_malformed (csv_dir xml_file : Path) w :
  encodable_path xml_file = true →
  ET.parse (os_path xml_file) (fs w) = Raise ParseError →
  process_file csv_dir xml_file w =
    (Ok tt, World (fs w)
              (console w ++ [Processing (name xml_file);
                             ErrorParsing xml_file; Blank])).
Proof.
  intros Henc Hbad.
  rewrite process_file_steps, (encodable_path_name _ Henc).
  unfold mbind, M_bind.
  rewrite (xml_to_csv_parse_raises _ _ _ ParseError) by exact Hbad.
  rewrite print_encodable by exact Henc.
  unfold print. cbn [line_encodable fs console]. by rewrite <- !app_assoc.
Qed.

Lemma outputs_diverge (csv_dir : Path) (out1 out2 : string) :
  out1 ≠ out2 →
  diverge (os_path (joinpath csv_dir out1)) (os_path (joinpath csv_dir out2)).
Proof.
  intros Hne. unfold os_path, joinpath. cbn [rev].
  apply diverge_app. cbn. by left.
Qed.

(** The first and the third file are converted as if they were alone, the
    malformed second one leaves no trace in the file system. *)
Lemma malformed_file_isolated (script_dir : Path) (first bad third : string)
    w root1 root3 sample1 remaining1 sample3 remaining3 n1 n3 :
  let xml_dir := joinpath script_dir "xml" in
  let csv_dir := joinpath xml_dir "csv" in
  let out f := stem (joinpath xml_dir f) +:+ ".csv" in
  let samples1 := sample1 :: remaining1 in
  let samples3 := sample3 :: remaining3 in
  Str.endswith ".xml" first = true →
  Str.endswith ".xml" bad = true →
  Str.endswith ".xml" third = true →
  encodable_path (joinpath xml_dir first) = true →
  encodable_path (joinpath xml_dir bad) = true →
  encodable_path (joinpath xml_dir third) = true →
  ET.parse (os_path (joinpath xml_dir first)) (fs w) = Ok root1 →
  ET.findall_descendants "Sample" root1 = samples1 →
  ET.parse (os_path (joinpath xml_dir bad)) (fs w) = Raise ParseError →
  ET.parse (os_path (joinpath xml_dir third)) (fs w) = Ok root3 →
  ET.findall_descendants "Sample" root3 = samples3 →
  os.open_w (os_path (joinpath csv_dir (out first))) (fs w) = Ok n1 →
  os.open_w (os_path (joinpath csv_dir (out third))) (fs w) = Ok n3 →
  out first ≠ out third →
  ∃ w',
    for_each [joinpath xml_dir first; joinpath xml_dir bad; joinpath xml_dir third]
      (process_file csv_dir) w = (Ok tt, w') ∧
    os.stat (os_path (joinpath csv_dir (out first))) (fs w') =
      Ok (File (CsvText (collect_field_names samples1 ::
                         map (row_record (collect_field_names samples1)) samples1))) ∧
    os.stat (os_path (joinpath csv_dir (out third))) (fs w') =
      Ok (File (CsvText (collect_field_names samples3 ::
                         map (row_record (collect_field_names samples3)) samples3))) ∧
    (out bad ≠ out first → out bad ≠ out third →
     os.stat (os_path (joinpath csv_dir (out bad))) (fs w') =
     os.stat (os_path (joinpath csv_dir (out bad))) (fs w)).
Proof.
  intros xml_dir csv_dir out samples1 samples3 He1 He2 He3 Hc1 Hc2 Hc3
    Hp1 Hf1 Hp2 Hp3 Hf3 Ho1 Ho3 Hne.
  destruct (process_file_converts csv_dir (joinpath xml_dir first) w
              root1 sample1 remaining1 n1 Hc1 Hp1 Hf1 Ho1) as (w1 & Hrun1 & Hw1).
  cbn zeta in Hw1. fold samples1 in Hw1. fold (out first) in Hw1.
  destruct Hw1 as (Hst1 & Hfr1 & Hk1).
  assert (Hp2' : ET.parse (os_path (joinpath xml_dir bad)) (fs w1) = Raise ParseError).
  { rewrite <- Hp2. apply parse_frame, Hfr1. by apply input_diverges_from_outputs. }
  pose proof (process_file_malformed csv_dir _ _ Hc2 Hp2') as Hrun2.
  set (w2 := World (fs w1) (console w1 ++ [Processing (name (joinpath xml_dir bad));
                                           ErrorParsing (joinpath xml_dir bad); Blank])) in *.
  assert (Hp3' : ET.parse (os_path (joinpath xml_dir third)) (fs w2) = Ok root3).
  { rewrite <- Hp3. apply parse_frame, Hfr1. by apply input_diverges_from_outputs. }
  destruct (Hk1 (os_path (joinpath csv_dir (out third)))) as [n3' Ho3'].
  { by apply outputs_diverge. }
  { by exists n3. }
  destruct (process_file_converts csv_dir (joinpath xml_dir third) w2
              root3 sample3 remaining3 n3' Hc3 Hp3' Hf3 Ho3') as (w3 & Hrun3 & Hw3).
  cbn zeta in Hw3. fold samples3 in Hw3. fold (out third) in Hw3.
  destruct Hw3 as (Hst3 & Hfr3 & _).
  exists w3. split; [|split; [|split]].
  - cbn [for_each]. unfold mbind, M_bind. rewrite Hrun1, Hrun2, Hrun3.
    by destruct w3.
  - rewrite Hfr3; [exact Hst1|]. apply outputs_diverge. congruence.
  - exact Hst3.
  - intros Hb1 Hb3. rewrite Hfr3 by (apply outputs_diverge; congruence).
    cbn [fs w2]. apply Hfr1. apply outputs_diverge. congruence.
Qed.
End isolation.

(** ** Document order of the collected samples *)

Section document_order.
Implicit Types (e c : Element) (cs : list Element) (pos : list nat).

(** Induction on elements with the hypothesis for all the children. *)
Lemma Element_children_ind (P : Element → Prop) :
  (∀ t x cs, Forall P cs → P (mkElement t x cs)) → ∀ e, P e.
Proof.
  intros Hstep. fix IH 1. intros [t x cs]. apply Hstep.
  induction cs as [|c cs IHcs]; constructor; [apply IH|exact IHcs].
Qed.

Lemma child_positions_cons positions_of i cs pos :
  pos ∈ child_positions positions_of i cs →
  ∃ j pos', pos = j :: pos' ∧ (i ≤ j)%nat.
Proof.
  revert i. induction cs as [|c cs IH]; intros i; cbn [child_positions].
  - by intros ?%elem_of_nil.
  - intros [Hin|Hin]%elem_of_app.
    + apply list_elem_of_fmap in Hin as (pos' & -> & _). eauto.
    + apply IH in Hin as (j & pos' & -> & Hj). exists j, pos'. split; [done|lia].
Qed.

(** Each position of the list leads to the element the pre-order has at the
    same place. *)
Lemma child_positions_iter (all : list Element) i cs :
  (∀ k c, cs !! k = Some c → all !! (i + k)%nat = Some c) →
  Forall (fun c => Forall2 (fun pos x => element_at pos c = Some x)
                     (positions c) (ET.iter c)) cs →
  Forall2 (fun pos x =>
             ∃ j pos', pos = j :: pos' ∧ all !! j ≫= element_at pos' = Some x)
          (child_positions positions i cs) (flat_map ET.iter cs).
Proof.
  revert i. induction cs as [|c cs IH]; intros i Hall Hcs;
    cbn [child_positions flat_map]; [constructor|].
  apply Forall_cons in Hcs as [Hc Hcs]. apply Forall2_app.
  - apply Forall2_fmap_l. eapply Forall2_impl; [exact Hc|].
    intros pos x Hx. exists i, pos. split; [done|].
    rewrite <- (Nat.add_0_r i), (Hall 0%nat c eq_refl). exact Hx.
  - apply IH; [|done]. intros k c' Hk.
    rewrite Nat.add_succ_l, <- Nat.add_succ_r. by apply Hall.
Qed.

Lemma positions_iter e :
  Forall2 (fun pos x => element_at pos e = Some x) (positions e) (ET.iter e).
Proof.
  induction e as [t x cs IH] using Element_children_ind.
  cbn [positions ET.iter]. constructor; [done|].
  eapply Forall2_impl; [apply (child_positions_iter cs 0 cs); [done|exact IH]|].
  intros pos y (j & pos' & -> & Hy). exact Hy.
Qed.

Lemma child_positions_complete positions_of i cs k c pos :
  cs !! k = Some c → pos ∈ positions_of c →
  (i + k)%nat :: pos ∈ child_positions positions_of i cs.
Proof.
  revert i k. induction cs as [|c' cs IH]; intros i [|k] Hk Hpos; try done;
    cbn [child_positions]; apply elem_of_app.
  - injection Hk as ->. left. rewrite Nat.add_0_r.
    apply list_elem_of_fmap. eauto.
  - right. rewrite <- Nat.add_succ_comm. by apply IH.
Qed.

Lemma positions_complete e pos x :
  element_at pos e = Some x → pos ∈ positions e.
Proof.
  revert pos. induction e as [t y cs IH] using Element_children_ind.
  intros [|j pos]; cbn [positions element_at children]; [left|].
  intros Hx. right. destruct (cs !! j) as [c|] eqn:Hj; [|done].
  apply (child_positions_complete positions 0 cs j c); [done|].
  rewrite Forall_forall in IH. eapply IH; [|exact Hx].
  by eapply list_elem_of_lookup_2.
Qed.

Lemma positions_sound e pos :
  pos ∈ positions e → ∃ x, element_at pos e = Some x.
Proof.
  intros Hpos. apply list_elem_of_lookup_1 in Hpos as [k Hk].
  destruct (Forall2_lookup_l _ _ _ _ _ (positions_iter e) Hk) as (x & _ & Hx).
  eauto.
Qed.

Lemma precedes_cons i p q : precedes p q → precedes (i :: p) (i :: q).
Proof. cbn. auto. Qed.

Lemma child_positions_sorted i cs :
  Forall (fun c => StronglySorted precedes (positions c)) cs →
  StronglySorted precedes (child_positions positions i cs).
Proof.
  revert i. induction cs as [|c cs IH]; intros i Hcs; cbn [child_positions];
    [constructor|].
  apply Forall_cons in Hcs as [Hc Hcs]. apply StronglySorted_app_2.
  - intros p q (p' & -> & _)%list_elem_of_fmap
      (j & q' & -> & Hj)%child_positions_cons.
    cbn. left. lia.
  - apply (StronglySorted_fmap _ precedes); [|done].
    intros p q. apply precedes_cons.
  - by apply IH.
Qed.

Lemma positions_sorted e : StronglySorted precedes (positions e).
Proof.
  induction e as [t x cs IH] using Element_children_ind. cbn [positions].
  constructor; [by apply child_positions_sorted|].
  apply Forall_forall. intros q (j & q' & -> & _)%child_positions_cons. done.
Qed.

Lemma StronglySorted_filter {A} (R : relation A) (P : A → Prop)
    `{!∀ x, Decision (P x)} (l : list A) :
  StronglySorted R l → StronglySorted R (filter P l).
Proof.
  induction 1 as [|x l Hl IH Hx]; [constructor|].
  rewrite filter_cons. destruct (decide (P x)); [|done].
  constructor; [done|]. apply Forall_forall. intros y [_ Hy]%list_elem_of_filter.
  rewrite Forall_forall in Hx. auto.
Qed.

(** The collected elements are the elements with the tag at the positions
    other than the root's, each once, in document order. *)
Theorem findall_descendants_document_order (t : string) (root : Element) :
  ∃ found : list (list nat),
    StronglySorted precedes found ∧
    (∀ pos, pos ∈ found ↔
            pos ≠ [] ∧ ∃ e, element_at pos root = Some e ∧ tag e = t) ∧
    Forall2 (fun pos e => element_at pos root = Some e)
            found (ET.findall_descendants t root).
Proof.
  exists (filter (fun pos => tag <$> element_at pos root = Some t)
                 (List.tl (positions root))).
  pose proof (positions_sorted root) as Hsorted.
  pose proof (positions_iter root) as Hiter.
  assert (Htl : ∀ pos, pos ∈ List.tl (positions root) ↔
                       pos ≠ [] ∧ ∃ e, element_at pos root = Some e).
  { intros pos. split.
    - intros Hin. split.
      + destruct root as [t0 x cs]. cbn [positions List.tl] in Hin.
        by apply child_positions_cons in Hin as (j & pos' & -> & _).
      + apply positions_sound. destruct root as [t0 x cs]. by right.
    - intros [Hne [e He%positions_complete]].
      destruct root as [t0 x cs]. cbn [positions List.tl] in *.
      by apply elem_of_cons in He as [->|He]. }
  split; [|split].
  - apply StronglySorted_filter.
    destruct root as [t0 x cs]. cbn [positions List.tl] in *.
    by apply StronglySorted_inv in Hsorted as [? _].
  - intros pos. rewrite list_elem_of_filter, Htl. split.
    + intros [Htag [Hne [e He]]]. split; [done|]. exists e. split; [done|].
      rewrite He in Htag. by injection Htag.
    + intros [Hne (e & He & Htag)]. split; [by rewrite He, <- Htag|eauto].
  - unfold ET.findall_descendants.
    apply (Forall2_filter _ (fun pos => tag <$> element_at pos root = Some t)
             (fun e => tag e = t)).
    + intros pos e He. rewrite He. cbn. split; [by intros [= ->]|by intros ->].
    + destruct root as [t0 x cs]. cbn [positions ET.iter List.tl] in *.
      by apply Forall2_cons_1 in Hiter as [_ ?].
Qed.
End document_order.

(** ** Directories that are there *)

Section directories.
Implicit Types (p q : list string) (n : node) (w : world).

(** Making a directory where something is: EEXIST. *)
Lemma os_mkdir_exists p n d :
  os.stat p n = Ok d → os.mkdir p n = Raise FileExistsError.
Proof.
  unfold os.mkdir.
  revert n. induction p as [|x p IH]; intros n Hst; [done|].
  cbn [os.stat os.update_path] in *. destruct n as [c|es]; [done|].
  destruct (es !! x) as [nx|]; [|done]. by rewrite (IH nx Hst).
Qed.


(** Making a directory in a directory that is there only fails when the
    name is taken. *)
Lemma os_mkdir_in_dir p y n es e :
  os.stat p n = Ok (Dir es) → os.mkdir (p ++ [y]) n = Raise e →
  e = FileExistsError.
Proof.
  unfold os.mkdir.
  revert n. induction p as [|z p IH]; intros n Hst; cbn [app os.stat os.update_path] in *.
  - injection Hst as ->. destruct (es !! y) as [ny|]; [|done].
    cbn. by intros [= <-].
  - destruct n as [?|es0]; [done|]. destruct (es0 !! z) as [nz|]; [|done].
    destruct (os.update_path _ _ (p ++ [y]) nz) as [nz'|e'] eqn:Hup; [done|].
    cbn. intros [= <-]. by eapply IH.
Qed.

(** A regular file in the way: ENOTDIR. *)
Lemma update_path_through_file create change p x q n c :
  os.stat p n = Ok (File c) →
  os.update_path create change (p ++ x :: q) n = Raise NotADirectoryError.
Proof.
  revert n. induction p as [|z p IH]; intros n Hst; cbn [app os.stat os.update_path] in *.
  - by injection Hst as ->.
  - destruct n as [?|es]; [done|]. destruct (es !! z) as [nz|]; [|done].
    by rewrite (IH nz Hst).
Qed.

(** A regular file can be opened for writing. *)
Lemma writable_file p n c : os.stat p n = Ok (File c) → writable p n.
Proof.
  intros Hst. by eapply (update_path_present _ _ p n (File c) (File (CsvText []))).
Qed.

(** [mkdir(parents=True, exist_ok=True)] of a directory that is there does
    nothing. *)
Lemma mkdir_parents_existing (p : Path) n :
  is_dir p n = true → mkdir_parents true p n = Ok n.
Proof.
  unfold is_dir. destruct (os.stat (os_path p) n) as [[?|es]|?] eqn:Hst; try done.
  intros _. pose proof (os_mkdir_exists _ _ _ Hst) as Hmk.
  assert (Hdir : is_dir p n = true) by (unfold is_dir; by rewrite Hst).
  destruct p; cbn [mkdir_parents]; rewrite Hmk; cbn [is_OSError negb orb];
    by rewrite Hdir.
Qed.


(** The loop keeps the output directory a directory. *)
Lemma for_each_process_file_keeps_csv_dir (csv_dir : Path) (xml_files : list Path) w :
  is_dir csv_dir (fs w) = true →
  is_dir csv_dir (fs (for_each xml_files (process_file csv_dir) w).2) = true.
Proof.
  apply (for_each_preserves
           (fun w w' => is_dir csv_dir (fs w) = true → is_dir csv_dir (fs w') = true));
    [done|auto|].
  intros f w0 _ Hdir.
  destruct (process_file_fs csv_dir f w0) as [->|[recs (Hst & _)]]; [done|].
  unfold os_path, joinpath in Hst. cbn [rev] in Hst.
  apply stat_parent in Hst as [es Hes]. unfold is_dir, os_path. by rewrite Hes.
Qed.
End directories.

(** ** The files found *)

Section files_found.
Implicit Types (p : Path) (n : node).

Lemma map_fmap {A B} (f : A → B) (l : list A) : map f l = f <$> l.
Proof. induction l as [|x l IH]; [done|]. cbn. by rewrite IH. Qed.

Lemma scandir_names p n names nm :
  os.scandir (os_path p) n = Ok names →
  nm ∈ names ↔ ∃ c, os.stat (os_path (joinpath p nm)) n = Ok c.
Proof.
  unfold os.scandir, os_path, joinpath. cbn [rev]. rewrite stat_app.
  destruct (os.stat (rev p) n) as [[?|es]|e]; try done.
  cbn. intros [= <-]. rewrite map_fmap. split.
  - intros ((nm' & c) & -> & Hin%elem_of_map_to_list)%list_elem_of_fmap.
    cbn. exists c. by rewrite Hin.
  - intros [c Hc]. destruct (es !! nm) as [c'|] eqn:Hnm; [|done].
    apply list_elem_of_fmap. exists (nm, c'). split; [done|].
    by apply elem_of_map_to_list.
Qed.

(** The files [glob] yields: the entries of the directory whose name has
    the suffix. *)
Lemma glob_suffix_elem suffix p n (f : Path) :
  f ∈ glob_suffix suffix p n ↔
  ∃ nm, f = joinpath p nm ∧ Str.endswith suffix nm = true ∧
        ∃ c, os.stat (os_path f) n = Ok c.
Proof.
  unfold glob_suffix.
  destruct (os.scandir (os_path p) n) as [names|e] eqn:Hscan.
  - rewrite map_fmap, list_elem_of_fmap. split.
    + intros (nm & -> & [Hend Hnm]%list_elem_of_filter).
      exists nm. split; [done|]. split; [by apply Is_true_true|].
      by apply (scandir_names _ _ _ _ Hscan).
    + intros (nm & -> & Hend & Hc). exists nm. split; [done|].
      apply list_elem_of_filter. split; [by apply Is_true_true|].
      by apply (scandir_names _ _ _ _ Hscan).
  - split; [by intros ?%elem_of_nil|].
    intros (nm & -> & _ & c & Hc). exfalso.
    unfold os.scandir in Hscan. unfold os_path, joinpath in Hc. cbn [rev] in Hc.
    rewrite stat_app in Hc.
    destruct (os.stat (os_path p) n) as [[?|es]|?] eqn:Hd; try done.
    + unfold os_path in Hd. by rewrite Hd in Hc.
    + unfold os_path in Hd. by rewrite Hd in Hc.
Qed.

(** What the loop of [main] leaves in the file system holds the same input
    files as what it started from. *)
Lemma glob_suffix_after_loop (script_dir : Path) (xml_files : list Path) w (f : Path) :
  let xml_dir := joinpath script_dir "xml" in
  let csv_dir := joinpath xml_dir "csv" in
  f ∈ glob_suffix ".xml" xml_dir
        (fs (for_each xml_files (process_file csv_dir) w).2) ↔
  f ∈ glob_suffix ".xml" xml_dir (fs w).
Proof.
  intros xml_dir csv_dir. rewrite !glob_suffix_elem.
  split; intros (nm & -> & Hend & c & Hc); exists nm; (split; [done|]);
    (split; [done|]); exists c; rewrite <- Hc; [symmetry|];
    apply for_each_process_file_outside; intros out;
    by apply input_diverges_from_outputs.
Qed.
End files_found.

(** ** Runs of the driver *)

Section runs.
Implicit Types (w : world) (n : node).

(** What a run that ended normally did. *)
Lemma main_returned (script_dir : Path) w :
  let xml_dir := joinpath script_dir "xml" in
  let csv_dir := joinpath xml_dir "csv" in
  (main script_dir w).1 = Ok tt →
  ∃ n', pathlib.mkdir true true csv_dir (fs w) = Ok n' ∧
        is_dir csv_dir (fs (main script_dir w).2) = true ∧
        (∀ f, f ∈ glob_suffix ".xml" xml_dir (fs (main script_dir w).2) ↔
              f ∈ glob_suffix ".xml" xml_dir n') ∧
        encodable_path xml_dir = true ∧
        (∀ f, f ∈ glob_suffix ".xml" xml_dir n' → encodable_path f = true).
Proof.
  intros xml_dir csv_dir. rewrite main_steps. fold xml_dir. fold csv_dir.
  destruct (pathlib.mkdir true true csv_dir (fs w)) as [n'|e] eqn:Hmk; [|done].
  destruct (xml_dir_exists_after_mkdir script_dir _ _ Hmk) as (Hdir & _ & _).
  fold xml_dir in Hdir. fold csv_dir in Hdir.
  destruct (glob_suffix ".xml" xml_dir n') as [|f files] eqn:Hglob.
  - rewrite print_result, print_fs. cbn [line_encodable fs].
    destruct (encodable_path xml_dir) eqn:Henc; [|done]. intros _.
    exists n'. split; [done|]. split; [done|]. split; [by rewrite Hglob|].
    split; [done|]. intros f. rewrite Hglob. by intros ?%elem_of_nil.
  - rewrite for_each_process_file_result.
    destruct (forallb encodable_path (f :: files)) eqn:Hall; [|done]. intros _.
    assert (Henc : ∀ f', f' ∈ f :: files → encodable_path f' = true).
    { intros f' Hf'. apply (proj1 (forallb_forall _ _) Hall).
      by apply list_elem_of_In. }
    exists n'. split; [done|]. split; [|split; [|split]].
    4:{ intros f'. rewrite Hglob. apply Henc. }
    + by apply for_each_process_file_keeps_csv_dir.
    + intros f'. etrans; [apply (glob_suffix_after_loop script_dir)|]. done.
    + assert (Hf : f ∈ glob_suffix ".xml" xml_dir n') by (rewrite Hglob; left).
      apply glob_suffix_names in Hf as [base Hf].
      pose proof (Henc f ltac:(left)) as Hencf.
      rewrite Hf, encodable_path_joinpath in Hencf.
      by apply andb_true_iff in Hencf as [_ ?].
Qed.

(** When a run ends normally. *)
Lemma main_returns (script_dir : Path) w n' :
  let xml_dir := joinpath script_dir "xml" in
  let csv_dir := joinpath xml_dir "csv" in
  pathlib.mkdir true true csv_dir (fs w) = Ok n' →
  encodable_path xml_dir = true →
  (∀ f, f ∈ glob_suffix ".xml" xml_dir n' → encodable_path f = true) →
  (main script_dir w).1 = Ok tt.
Proof.
  intros xml_dir csv_dir Hmk Hxml Henc. rewrite main_steps.
  fold xml_dir. fold csv_dir. rewrite Hmk.
  destruct (glob_suffix ".xml" xml_dir n') as [|f files] eqn:Hglob.
  - rewrite print_result. cbn [line_encodable]. by rewrite Hxml.
  - rewrite for_each_process_file_result.
    rewrite (proj2 (forallb_forall _ _)); [done|].
    intros f' Hf'. apply Henc. by apply list_elem_of_In.
Qed.
End runs.

(** * The claims *)

(** C1: the document whose root is a [<Sample>] with a child [A] and a
    [<Sample>] child that holds [B] has two elements named Sample, the root
    first.  The column order in the words of the claim, taken over them, is
    [A; Sample; B].  The converter does not collect the root: it takes the
    inner sample for the first one and writes the header [B]. *)
Theorem C1_root_sample_columns :
  let w := World (fs_with {[ "nested.xml" := File (XmlDocument nested_root);
                             "csv" := Dir ∅ ]}) [] in
  let inner := mkElement "Sample" None [field "B" "2"] in
  ET.iter_tag "Sample" nested_root = [nested_root; inner] ∧
  column_order nested_root [inner] = ["A"; "Sample"; "B"] ∧
  ET.findall_descendants "Sample" nested_root = [inner] ∧
  collect_field_names (ET.findall_descendants "Sample" nested_root) = ["B"] ∧
  xml_to_csv (xml_in_app "nested.xml") (csv_in_app "nested.csv") w =
    (Ok tt,
     World (fs_with {[ "nested.xml" := File (XmlDocument nested_root);
                       "csv" := Dir {[ "nested.csv" :=
                                         File (CsvText [["B"]; ["2"]]) ]} ]})
       [SuccessfullyConverted (xml_in_app "nested.xml") (csv_in_app "nested.csv");
        FoundSamples 1; CreatedColumns 1]).
Proof. vm_compute. repeat split. Qed.

(** C2: the CSV output of a conversion is one header record, the column
    names in the computed order, followed by one data record per collected
    sample; the records follow the samples, and the samples the document
    order of their positions.  A document without collected samples has no
    output at all.  The conversion returns normally when the path of its
    input can be encoded, and with the exception of [print] when it cannot;
    the output is the same in both cases. *)
Theorem C2_header_and_rows (xml_file_path csv_file_path : Path) (w : world)
    (root : Element) (n1 : node) :
  ET.parse (os_path xml_file_path) (fs w) = Ok root →
  os.open_w (os_path csv_file_path) (fs w) = Ok n1 →
  let samples := ET.findall_descendants "Sample" root in
  let field_names := collect_field_names samples in
  ∃ r w', xml_to_csv xml_file_path csv_file_path w = (r, w') ∧
    r = (if encodable_path xml_file_path then Ok tt
         else Raise UnicodeEncodeError) ∧
    match samples with
    | [] => fs w' = fs w
    | _ :: _ =>
        ∃ (rows : list (list string)) (found : list (list nat)),
          os.stat (os_path csv_file_path) (fs w') =
            Ok (File (CsvText (field_names :: rows))) ∧
          length rows = length samples ∧
          Forall2 (fun sample record =>
                     csv.dict_to_list field_names (build_row sample) = Ok record)
                  samples rows ∧
          StronglySorted precedes found ∧
          Forall2 (fun pos sample => element_at pos root = Some sample)
                  found samples
    end.
Proof.
  intros Hparse Hopen samples field_names. subst field_names samples.
  pose proof (xml_to_csv_result xml_file_path csv_file_path w) as Hr.
  destruct (findall_descendants_document_order "Sample" root)
    as (found & Hsorted & _ & Hfound).
  destruct (ET.findall_descendants "Sample" root) as [|sample0 remaining] eqn:Hfind.
  - pose proof (xml_to_csv_no_samples _ csv_file_path _ _ Hparse Hfind) as Hrun.
    destruct (xml_to_csv xml_file_path csv_file_path w) as [r w'].
    exists r, w'. split; [done|]. split; [exact Hr|].
    apply (f_equal (fun x => fs x.2)) in Hrun. cbn [snd] in Hrun.
    by rewrite Hrun, print_fs.
  - pose proof (xml_to_csv_output _ _ _ _ _ _ _ Hparse Hfind Hopen) as Hw.
    cbn zeta in Hw.
    destruct (xml_to_csv xml_file_path csv_file_path w) as [r w'].
    exists r, w'. split; [done|]. split; [exact Hr|].
    eexists _, found. split; [apply Hw|]. split; [by rewrite length_map|].
    split; [|done].
    apply Forall2_same_length_lookup_2; [by rewrite length_map|].
    intros i s rec Hs Hrec. rewrite lookup_map, Hs in Hrec. injection Hrec as <-.
    apply sample_record. by eapply list_elem_of_lookup_2.
Qed.

Lemma C2_header_and_rows_witness :
  ∃ r w', xml_to_csv (xml_in_app "people.xml") (csv_in_app "people.csv")
            (World (fs_with {[ "people.xml" := File (XmlDocument people);
                               "csv" := Dir ∅ ]}) [])
          = (r, w') ∧
    r = Ok tt ∧
    ∃ (rows : list (list string)) (found : list (list nat)),
      os.stat (os_path (csv_in_app "people.csv")) (fs w') =
        Ok (File (CsvText (["Name"; "Age"; "City"] :: rows))) ∧
      length rows = 2%nat ∧
      Forall2 (fun sample record =>
                 csv.dict_to_list ["Name"; "Age"; "City"] (build_row sample)
                 = Ok record)
              (ET.findall_descendants "Sample" people) rows ∧
      StronglySorted precedes found ∧
      Forall2 (fun pos sample => element_at pos people = Some sample)
              found (ET.findall_descendants "Sample" people).
Proof.
  eapply (C2_header_and_rows (xml_in_app "people.xml") (csv_in_app "people.csv")
            (World (fs_with {[ "people.xml" := File (XmlDocument people);
                               "csv" := Dir ∅ ]}) [])
            people);
    vm_compute; reflexivity.
Defined.

(** C3: in the file a conversion writes, the record of the [j]-th collected
    sample holds, in the cell of a declared column, the empty string when
    the sample has no child with that tag; otherwise the cell comes from the
    child with that tag (the last one, should there be several): the empty
    string when the child's text is null, the child's text when it is
    not. *)
Theorem C3_cells (xml_file_path csv_file_path : Path) (w : world)
    (root : Element) (n1 : node) (j : nat) (sample : Element) (i : nat) (c : string) :
  ET.parse (os_path xml_file_path) (fs w) = Ok root →
  os.open_w (os_path csv_file_path) (fs w) = Ok n1 →
  let samples := ET.findall_descendants "Sample" root in
  let field_names := collect_field_names samples in
  samples !! j = Some sample →
  field_names !! i = Some c →
  ∃ rows record cell,
    os.stat (os_path csv_file_path)
            (fs (xml_to_csv xml_file_path csv_file_path w).2) =
      Ok (File (CsvText (field_names :: rows))) ∧
    rows !! j = Some record ∧
    record !! i = Some cell ∧
    (c ∉ child_tags sample → cell = "") ∧
    (∀ pre child post,
       children sample = pre ++ child :: post →
       tag child = c → (∀ x, x ∈ post → tag x ≠ c) →
       (text child = None → cell = "") ∧
       (∀ t, text child = Some t → cell = t)).
Proof.
  intros Hparse Hopen samples field_names Hj Hi. subst field_names samples.
  destruct (ET.findall_descendants "Sample" root) as [|sample0 remaining] eqn:Hfind;
    [done|].
  destruct (xml_to_csv_output _ _ _ _ _ _ _ Hparse Hfind Hopen) as (Hst & _).
  destruct (row_record_cell _ sample _ _ Hi) as (cell & Hcell & Habsent & Hlast).
  eexists _, _, cell. split; [exact Hst|].
  split; [by rewrite lookup_map, Hj|]. split; [exact Hcell|].
  split; [exact Habsent|].
  intros pre child post Hch Htag Hpost.
  rewrite (Hlast pre child post Hch Htag Hpost).
  split; [by intros ->|by intros t ->].
Qed.

(** The first sample of [measurements] has the children [X] with the text
    [a], [Y] without text and [X] with the text [b], and no child [Z]: the
    cells of its record are [b], the empty string and the empty string. *)
Lemma C3_cells_witness :
  let w := World (fs_with {[ "m.xml" := File (XmlDocument measurements);
                             "csv" := Dir ∅ ]}) [] in
  let w' := (xml_to_csv (xml_in_app "m.xml") (csv_in_app "m.csv") w).2 in
  (∃ rows record,
     os.stat (os_path (csv_in_app "m.csv")) (fs w') =
       Ok (File (CsvText (["X"; "Y"; "Z"] :: rows))) ∧
     rows !! 0%nat = Some record ∧ record !! 0%nat = Some "b") ∧
  (∃ rows record,
     os.stat (os_path (csv_in_app "m.csv")) (fs w') =
       Ok (File (CsvText (["X"; "Y"; "Z"] :: rows))) ∧
     rows !! 0%nat = Some record ∧ record !! 1%nat = Some "") ∧
  (∃ rows record,
     os.stat (os_path (csv_in_app "m.csv")) (fs w') =
       Ok (File (CsvText (["X"; "Y"; "Z"] :: rows))) ∧
     rows !! 0%nat = Some record ∧ record !! 2%nat = Some "").
Proof.
  intros w w'.
  assert (Hn1 : os.open_w (os_path (csv_in_app "m.csv")) (fs w) =
                Ok (fs_with {[ "m.xml" := File (XmlDocument measurements);
                               "csv" := Dir {[ "m.csv" := File (CsvText []) ]} ]}))
    by (vm_compute; reflexivity).
  split; [|split].
  - destruct (C3_cells (xml_in_app "m.xml") (csv_in_app "m.csv") w measurements _
                0 twice 0 "X" eq_refl Hn1 eq_refl eq_refl)
      as (rows & record & cell & Hst & Hrow & Hcell & _ & Hlast).
    destruct (Hlast [field "X" "a"; mkElement "Y" None []] (field "X" "b") []
                eq_refl eq_refl) as [_ Htext].
    { intros x Hx. by apply elem_of_nil in Hx. }
    exists rows, record. split; [exact Hst|]. split; [exact Hrow|].
    rewrite Hcell. f_equal. by apply Htext.
  - destruct (C3_cells (xml_in_app "m.xml") (csv_in_app "m.csv") w measurements _
                0 twice 1 "Y" eq_refl Hn1 eq_refl eq_refl)
      as (rows & record & cell & Hst & Hrow & Hcell & _ & Hlast).
    destruct (Hlast [field "X" "a"] (mkElement "Y" None []) [field "X" "b"]
                eq_refl eq_refl) as [Hnull _].
    { intros x Hx. apply list_elem_of_singleton in Hx as ->. done. }
    exists rows, record. split; [exact Hst|]. split; [exact Hrow|].
    rewrite Hcell. f_equal. by apply Hnull.
  - destruct (C3_cells (xml_in_app "m.xml") (csv_in_app "m.csv") w measurements _
                0 twice 2 "Z" eq_refl Hn1 eq_refl eq_refl)
      as (rows & record & cell & Hst & Hrow & Hcell & Habsent & _).
    exists rows, record. split; [exact Hst|]. split; [exact Hrow|].
    rewrite Hcell. f_equal. apply Habsent.
    intros Hin. apply list_elem_of_In in Hin. cbn in Hin.
    by destruct Hin as [?|[?|[?|[]]]].
Defined.

(** C4: when a collected sample has several children with the same tag, the
    cell of that tag in the sample's record of the file written holds the
    text of the last of them in document order; for two children with tag X
    and texts a then b, the cell of X is b. *)
Theorem C4_last_child_wins (xml_file_path csv_file_path : Path) (w : world)
    (root : Element) (n1 : node) (j : nat) (sample : Element)
    (X : string) (pre mid post : list Element) (child1 child2 : Element) :
  ET.parse (os_path xml_file_path) (fs w) = Ok root →
  os.open_w (os_path csv_file_path) (fs w) = Ok n1 →
  let samples := ET.findall_descendants "Sample" root in
  let field_names := collect_field_names samples in
  samples !! j = Some sample →
  children sample = pre ++ child1 :: mid ++ child2 :: post →
  tag child1 = X → tag child2 = X → (∀ x, x ∈ post → tag x ≠ X) →
  ∃ rows record i,
    os.stat (os_path csv_file_path)
            (fs (xml_to_csv xml_file_path csv_file_path w).2) =
      Ok (File (CsvText (field_names :: rows))) ∧
    rows !! j = Some record ∧
    field_names !! i = Some X ∧
    (∀ i', field_names !! i' = Some X → i' = i) ∧
    record !! i = Some (default "" (text child2)) ∧
    (∀ a b, text child1 = Some a → text child2 = Some b → record !! i = Some b).
Proof.
  intros Hparse Hopen samples field_names Hj Hch H1 H2 Hpost.
  subst field_names samples.
  destruct (ET.findall_descendants "Sample" root) as [|sample0 remaining] eqn:Hfind;
    [done|].
  destruct (xml_to_csv_output _ _ _ _ _ _ _ Hparse Hfind Hopen) as (Hst & _).
  cbn zeta in Hst. set (samples := sample0 :: remaining) in *.
  assert (HX : X ∈ collect_field_names samples).
  { rewrite collect_field_names_eq, elem_of_first_occurrences.
    apply list_elem_of_In, in_flat_map. exists sample.
    split; [apply list_elem_of_In; by eapply list_elem_of_lookup_2|].
    unfold child_tags. rewrite Hch.
    apply in_map_iff. exists child1. split; [done|].
    apply in_or_app. right. by left. }
  apply list_elem_of_lookup_1 in HX as [i Hi].
  destruct (row_record_cell _ sample _ _ Hi) as (cell & Hcell & _ & Hlast).
  assert (Hlast2 : cell = default "" (text child2)).
  { apply (Hlast (pre ++ child1 :: mid) child2 post); [|done..].
    by rewrite Hch, <- app_assoc. }
  subst cell.
  eexists _, _, i. split; [exact Hst|].
  split; [by rewrite lookup_map, Hj|]. split; [exact Hi|].
  split; [|split; [exact Hcell|]].
  - intros i' Hi'. eapply NoDup_lookup; [|exact Hi'|exact Hi].
    rewrite collect_field_names_eq. apply NoDup_first_occurrences.
  - intros a b _ Hb. by rewrite Hcell, Hb.
Qed.

Lemma C4_last_child_wins_witness :
  let w := World (fs_with {[ "m.xml" := File (XmlDocument measurements);
                             "csv" := Dir ∅ ]}) [] in
  ∃ rows record i,
    os.stat (os_path (csv_in_app "m.csv"))
            (fs (xml_to_csv (xml_in_app "m.xml") (csv_in_app "m.csv") w).2) =
      Ok (File (CsvText (["X"; "Y"; "Z"] :: rows))) ∧
    rows !! 0%nat = Some record ∧
    ["X"; "Y"; "Z"] !! i = Some "X" ∧
    (∀ i', ["X"; "Y"; "Z"] !! i' = Some "X" → i' = i) ∧
    record !! i = Some "b" ∧
    (∀ a b, Some "a" = Some a → Some "b" = Some b → record !! i = Some b).
Proof.
  intros w.
  eapply (C4_last_child_wins (xml_in_app "m.xml") (csv_in_app "m.csv") w
            measurements _ 0 twice
            "X" [] [mkElement "Y" None []] [] (field "X" "a") (field "X" "b")).
  - reflexivity.
  - vm_compute; reflexivity.
  - reflexivity.
  - reflexivity.
  - reflexivity.
  - reflexivity.
  - intros x Hx. by apply elem_of_nil in Hx.
Defined.

(** C5: started without an [xml] directory, the driver creates [xml] and
    [xml/csv], prints that it found no XML files and returns; the
    missing-directory error is not printed. *)
Theorem C5_missing_directory_not_reported :
  let w := World (Dir {[ "app" := Dir ∅ ]}) [] in
  exists_ ["xml"; "app"] (fs w) = false ∧
  main app_dir w =
    (Ok tt, World (fs_with {[ "csv" := Dir ∅ ]}) [NoXmlFilesFound ["xml"; "app"]]).
Proof. vm_compute. repeat split. Qed.

(** C6: for the document whose root is the one [<Sample>] element, the
    search that collects the samples returns nothing although the tree holds
    an element named Sample: the converter warns that it found none and
    writes no row. *)
Theorem C6_root_sample_not_collected :
  let w := World (fs_with {[ "one.xml" := File (XmlDocument root_sample);
                             "csv" := Dir ∅ ]}) [] in
  ET.iter_tag "Sample" root_sample = [root_sample] ∧
  ET.findall_descendants "Sample" root_sample = [] ∧
  xml_to_csv (xml_in_app "one.xml") (csv_in_app "one.csv") w =
    (Ok tt, World (fs w) [WarningNoSamples (xml_in_app "one.xml")]).
Proof. vm_compute. repeat split. Qed.







(** C9: the output name is [stem + '.csv'].  For the file named [.xml] the
    stem is the whole name, so its output is [.xml.csv], the output name of
    [.xml.xml] as well: with both in the directory the driver converts two
    files and leaves one output, whose content is that of the file it
    processed last. *)
Theorem C9_dot_xml_collision :
  let w := World (fs_with {[ ".xml" := File (XmlDocument people);
                             ".xml.xml" := File (XmlDocument measurements) ]}) [] in
  stem (xml_in_app ".xml") +:+ ".csv" = ".xml.csv" ∧
  stem (xml_in_app ".xml.xml") +:+ ".csv" = ".xml.csv" ∧
  (main app_dir w).1 = Ok tt ∧
  console (main app_dir w).2 =
    [FoundXmlFiles 2;
     Processing ".xml.xml";
     SuccessfullyConverted (xml_in_app ".xml.xml") (csv_in_app ".xml.csv");
     FoundSamples 2; CreatedColumns 3; Blank;
     Processing ".xml";
     SuccessfullyConverted (xml_in_app ".xml") (csv_in_app ".xml.csv");
     FoundSamples 2; CreatedColumns 3; Blank] ∧
  os.scandir ["app"; "xml"; "csv"] (fs (main app_dir w).2) = Ok [".xml.csv"] ∧
  os.stat ["app"; "xml"; "csv"; ".xml.csv"] (fs (main app_dir w).2) =
    Ok (File (CsvText [["Name"; "Age"; "City"];
                       ["Alice"; "30"; ""];
                       ["Bob"; ""; "NYC"]])).
Proof. vm_compute. repeat split. Qed.

(** C10: the driver makes [xml/csv] (with its parents) before it tests
    whether [xml] exists.  When the creation succeeds both directories exist
    afterwards, so the test never fails: the driver behaves as the driver
    without the test and never prints the missing-directory error.  On a run
    that starts without an [xml] directory, [xml] and [xml/csv] are created
    all the same, and all the run does then is print the no-files report:
    it ends normally with that line when the path of [xml] can be
    encoded. *)
Theorem C10_mkdir_before_check (script_dir : Path) (w : world) :
  let xml_dir := joinpath script_dir "xml" in
  let csv_dir := joinpath xml_dir "csv" in
  (∀ n', pathlib.mkdir true true csv_dir (fs w) = Ok n' →
         is_dir csv_dir n' = true ∧ is_dir xml_dir n' = true ∧
         exists_ xml_dir n' = true) ∧
  main script_dir w =
    (fs_write (pathlib.mkdir true true csv_dir) ;;
     xml_files ← fs_read (fun n => mret (glob_suffix ".xml" xml_dir n));
     match xml_files with
     | [] => print (NoXmlFilesFound xml_dir)
     | _ :: _ =>
         print (FoundXmlFiles (length xml_files)) ;;
         for_each xml_files (process_file csv_dir)
     end) w ∧
  adds_no_directory_error (main script_dir) w ∧
  (is_dir script_dir (fs w) = true → exists_ xml_dir (fs w) = false →
   ∃ n', main script_dir w =
           print (NoXmlFilesFound xml_dir) (World n' (console w)) ∧
         (encodable_path xml_dir = true →
          main script_dir w =
            (Ok tt, World n' (console w ++ [NoXmlFilesFound xml_dir]))) ∧
         is_dir xml_dir n' = true ∧ is_dir csv_dir n' = true).
Proof.
  intros xml_dir csv_dir.
  assert (Hsame : main script_dir w =
    (fs_write (pathlib.mkdir true true csv_dir) ;;
     xml_files ← fs_read (fun n => mret (glob_suffix ".xml" xml_dir n));
     match xml_files with
     | [] => print (NoXmlFilesFound xml_dir)
     | _ :: _ =>
         print (FoundXmlFiles (length xml_files)) ;;
         for_each xml_files (process_file csv_dir)
     end) w).
  { unfold main, mbind, M_bind, fs_write, fs_read. fold xml_dir. fold csv_dir.
    destruct (pathlib.mkdir true true csv_dir (fs w)) as [n'|e] eqn:Hmk; [|done].
    cbn [fs console mret M_ret result_ret].
    destruct (xml_dir_exists_after_mkdir script_dir _ _ Hmk) as (_ & _ & Hex).
    fold xml_dir in Hex. by rewrite Hex. }
  split; [apply xml_dir_exists_after_mkdir|]. split; [exact Hsame|]. split.
  - unfold adds_no_directory_error. rewrite main_steps.
    fold xml_dir. fold csv_dir.
    destruct (pathlib.mkdir true true csv_dir (fs w)) as [n'|e] eqn:Hmk.
    2:{ exists []. by rewrite app_nil_r. }
    destruct (glob_suffix ".xml" xml_dir n') as [|f files].
    + by apply (print_adds _ (World n' (console w))).
    + destruct (for_each_process_file_console csv_dir (f :: files)
                  (World n' (console w ++ [FoundXmlFiles (length (f :: files))])))
        as (lines & Hc & Hl).
      cbn [console] in Hc. rewrite Hc.
      exists ([FoundXmlFiles (length (f :: files))] ++ lines).
      split; [by rewrite <- app_assoc|].
      apply Forall_app. split; [by repeat constructor|done].
  - intros Hsd Hno. clear Hsame.
    unfold is_dir in Hsd. unfold exists_ in Hno.
    destruct (os.stat (os_path script_dir) (fs w)) as [[c|es]|e] eqn:Hst; try done.
    assert (Hx : es !! "xml" = None).
    { unfold xml_dir, joinpath, os_path in Hno. cbn [rev] in Hno.
      rewrite stat_app in Hno. unfold os_path in Hst. rewrite Hst in Hno.
      cbn in Hno. by destruct (es !! "xml"). }
    assert (Hmk : ∃ n', pathlib.mkdir true true csv_dir (fs w) = Ok n' ∧
                        os.stat (os_path xml_dir) n' = Ok (Dir {[ "csv" := Dir ∅ ]})).
    { unfold pathlib.mkdir, csv_dir, xml_dir, joinpath. cbn [mkdir_parents].
      unfold os_path in *. cbn [rev]. rewrite <- app_assoc. cbn [app].
      rewrite (os_mkdir_missing_parent _ _ _ _ _ Hst Hx).
      destruct (os_mkdir_fresh _ "xml" _ _ Hst Hx) as (n1 & -> & Hst1).
      cbn [mbind result_bind]. unfold mkdir_here, os_path. cbn [rev].
      assert (Hxml1 : os.stat (rev script_dir ++ ["xml"]) n1 = Ok (Dir ∅)).
      { rewrite stat_app, Hst1. cbn. by rewrite lookup_insert_eq. }
      destruct (os_mkdir_fresh _ "csv" _ _ Hxml1 (lookup_empty _)) as (n2 & -> & Hst2).
      exists n2. split; [done|]. by rewrite Hst2, insert_empty. }
    destruct Hmk as (n' & Hmk & Hst').
    destruct (xml_dir_exists_after_mkdir script_dir _ _ Hmk) as (Hc & Hxd & _).
    assert (Hglob : glob_suffix ".xml" xml_dir n' = []).
    { unfold glob_suffix, os.scandir. rewrite Hst'.
      cbn [mbind result_bind mret result_ret].
      by rewrite map_to_list_singleton. }
    assert (Hmain : main script_dir w =
                    print (NoXmlFilesFound xml_dir) (World n' (console w))).
    { rewrite main_steps. fold xml_dir. fold csv_dir. by rewrite Hmk, Hglob. }
    exists n'. split; [exact Hmain|]. split; [|done].
    intros Henc. rewrite Hmain. by rewrite print_encodable.
Qed.

Lemma C10_mkdir_before_check_witness :
  ∃ n', main app_dir (World (Dir {[ "app" := Dir ∅ ]}) []) =
          (Ok tt, World n' [NoXmlFilesFound ["xml"; "app"]]) ∧
        is_dir ["xml"; "app"] n' = true ∧ is_dir ["csv"; "xml"; "app"] n' = true.
Proof.
  destruct (C10_mkdir_before_check app_dir (World (Dir {[ "app" := Dir ∅ ]}) []))
    as (_ & _ & _ & Hrun).
  destruct Hrun as (n' & _ & Hok & Hxml & Hcsv); [vm_compute; reflexivity..|].
  exists n'. split; [apply Hok; reflexivity|]. by split.
Defined.

(** * Further properties *)

(** X1: the samples the converter collects are the elements named Sample at
    the positions other than the root's, at any depth (a Sample nested in a
    Sample included), each once and in document order. *)
Theorem X1_collected_samples (root : Element) :
  ∃ found : list (list nat),
    StronglySorted precedes found ∧
    (∀ pos, pos ∈ found ↔
            pos ≠ [] ∧ ∃ e, element_at pos root = Some e ∧ tag e = "Sample") ∧
    Forall2 (fun pos sample => element_at pos root = Some sample)
            found (ET.findall_descendants "Sample" root).
Proof. exact (findall_descendants_document_order "Sample" root). Qed.

(** X2: the field names the two loops collect are the tag names of the
    samples' direct children in the order in which they are first met: the
    list of all those tag names, sample after sample, with every occurrence
    of a name after its first dropped.  For a first sample and the
    remaining ones that is the first sample's tag names, duplicates dropped,
    followed by the tag names of the remaining samples that were not
    recorded before.  No name is held twice, and the names held are the tag
    names of the samples' children. *)
Theorem X2_field_names (samples : list Element) :
  collect_field_names samples = first_occurrences (flat_map child_tags samples) ∧
  (∀ sample0 remaining,
     collect_field_names (sample0 :: remaining) = column_order sample0 remaining) ∧
  NoDup (collect_field_names samples) ∧
  (∀ t, t ∈ collect_field_names samples ↔
        ∃ sample, sample ∈ samples ∧ t ∈ child_tags sample) ∧
  collect_field_names samples `sublist_of` flat_map child_tags samples.
Proof.
  split; [apply collect_field_names_eq|].
  split; [intros; by rewrite collect_field_names_eq, column_order_eq|].
  rewrite collect_field_names_eq. split; [apply NoDup_first_occurrences|].
  split; [|apply first_occurrences_sublist].
  intros t. rewrite elem_of_first_occurrences, list_elem_of_In, in_flat_map.
  split; intros (s & Hs & Ht); exists s; by rewrite ?list_elem_of_In in *.
Qed.

(** X3: the counts of the report are those of the file: as many data
    records as the sample count says, each with as many cells as the header,
    whose length is the column count printed.  The report is printed when
    both paths can be encoded; otherwise the file is written all the same
    and the handler of line 73 prints in its place. *)
Theorem X3_report_matches_output (xml_file_path csv_file_path : Path) (w : world)
    (root sample0 : Element) (remaining : list Element) (n1 : node) :
  ET.parse (os_path xml_file_path) (fs w) = Ok root →
  ET.findall_descendants "Sample" root = sample0 :: remaining →
  os.open_w (os_path csv_file_path) (fs w) = Ok n1 →
  ∃ n' header rows,
    xml_to_csv xml_file_path csv_file_path w =
      (if encodable_path xml_file_path && encodable_path csv_file_path
       then (Ok tt, World n' (console w ++
                       [SuccessfullyConverted xml_file_path csv_file_path;
                        FoundSamples (length rows);
                        CreatedColumns (length header)]))
       else print (ErrorProcessing xml_file_path UnicodeEncodeError)
              (World n' (console w))) ∧
    os.stat (os_path csv_file_path) n' = Ok (File (CsvText (header :: rows))) ∧
    Forall (fun record => length record = length header) rows.
Proof.
  intros Hparse Hfind Hopen.
  destruct (xml_to_csv_converts _ _ _ _ _ _ _ Hparse Hfind Hopen) as (n' & Hrun & Hw).
  cbn zeta in Hrun, Hw.
  exists n', (collect_field_names (sample0 :: remaining)),
    (map (row_record (collect_field_names (sample0 :: remaining)))
         (sample0 :: remaining)).
  split; [by rewrite length_map|]. split; [apply Hw|].
  apply Forall_forall. intros r Hr.
  apply list_elem_of_In, in_map_iff in Hr as (s & <- & _).
  unfold row_record. by rewrite length_map.
Qed.

Lemma X3_report_matches_output_witness :
  ∃ n' header rows,
    xml_to_csv (xml_in_app "people.xml") (csv_in_app "people.csv")
      (World (fs_with {[ "people.xml" := File (XmlDocument people);
                         "csv" := Dir ∅ ]}) [])
    = (Ok tt, World n'
                ([] ++ [SuccessfullyConverted (xml_in_app "people.xml")
                          (csv_in_app "people.csv");
                        FoundSamples (length rows);
                        CreatedColumns (length header)])) ∧
    os.stat (os_path (csv_in_app "people.csv")) n' =
      Ok (File (CsvText (header :: rows))) ∧
    Forall (fun record => length record = length header) rows.
Proof.
  destruct (X3_report_matches_output (xml_in_app "people.xml")
              (csv_in_app "people.csv")
              (World (fs_with {[ "people.xml" := File (XmlDocument people);
                                 "csv" := Dir ∅ ]}) [])
              people (mkElement "Sample" None [field "Name" "Alice"; field "Age" "30"])
              [mkElement "Sample" None [field "Name" "Bob"; field "City" "NYC"]]
              (fs_with {[ "people.xml" := File (XmlDocument people);
                          "csv" := Dir {[ "people.csv" := File (CsvText []) ]} ]}))
    as (n' & header & rows & Hrun & Hfile);
    [vm_compute; reflexivity..|].
  exists n', header, rows. split; [exact Hrun|exact Hfile].
Defined.





(** X6: a conversion that succeeds, run again over its own output, succeeds
    again and writes the same records: both runs print the report of a
    successful conversion, and after each the output holds the header and
    one record per sample.  The output is opened with mode [w], so nothing
    of what the file held is kept and nothing is appended.  The output path
    must diverge from the input path: the second run reads the input
    again. *)
Theorem X6_rerun_rewrites (xml_file_path csv_file_path : Path) (w : world)
    (root sample0 : Element) (remaining : list Element) (n1 : node) :
  ET.parse (os_path xml_file_path) (fs w) = Ok root →
  ET.findall_descendants "Sample" root = sample0 :: remaining →
  os.open_w (os_path csv_file_path) (fs w) = Ok n1 →
  diverge (os_path csv_file_path) (os_path xml_file_path) →
  encodable_path xml_file_path = true →
  encodable_path csv_file_path = true →
  let samples := sample0 :: remaining in
  let field_names := collect_field_names samples in
  let recs := field_names :: map (row_record field_names) samples in
  let report := [SuccessfullyConverted xml_file_path csv_file_path;
                 FoundSamples (length samples);
                 CreatedColumns (length field_names)] in
  ∃ n' n'',
    xml_to_csv xml_file_path csv_file_path w =
      (Ok tt, World n' (console w ++ report)) ∧
    os.stat (os_path csv_file_path) n' = Ok (File (CsvText recs)) ∧
    xml_to_csv xml_file_path csv_file_path (World n' (console w ++ report)) =
      (Ok tt, World n'' ((console w ++ report) ++ report)) ∧
    os.stat (os_path csv_file_path) n'' = Ok (File (CsvText recs)).
Proof.
  intros Hparse Hfind Hopen Hdiv Hxml Hcsv samples field_names recs report.
  destruct (xml_to_csv_converts _ _ _ _ _ _ _ Hparse Hfind Hopen)
    as (n' & Hrun1 & Hst1 & Hfr1 & _).
  rewrite Hxml, Hcsv in Hrun1. cbn [andb] in Hrun1. cbn zeta in Hrun1, Hst1.
  fold samples field_names in Hrun1, Hst1. fold report in Hrun1. fold recs in Hst1.
  set (w1 := World n' (console w ++ report)) in *.
  assert (Hparse1 : ET.parse (os_path xml_file_path) (fs w1) = Ok root).
  { rewrite <- Hparse. apply parse_frame. by apply Hfr1. }
  destruct (writable_file _ _ _ Hst1) as [n1' Hopen1].
  destruct (xml_to_csv_converts xml_file_path csv_file_path w1 _ _ _ _
              Hparse1 Hfind Hopen1) as (n'' & Hrun2 & Hst2 & _).
  rewrite Hxml, Hcsv in Hrun2. cbn [andb] in Hrun2.
  exists n', n''. split; [exact Hrun1|]. split; [exact Hst1|].
  split; [exact Hrun2|exact Hst2].
Qed.

Lemma X6_rerun_rewrites_witness :
  let w := World (fs_with {[ "people.xml" := File (XmlDocument people);
                             "csv" := Dir ∅ ]}) [] in
  let recs := [["Name"; "Age"; "City"]; ["Alice"; "30"; ""]; ["Bob"; ""; "NYC"]] in
  let report := [SuccessfullyConverted (xml_in_app "people.xml")
                   (csv_in_app "people.csv");
                 FoundSamples 2; CreatedColumns 3] in
  ∃ n' n'',
    xml_to_csv (xml_in_app "people.xml") (csv_in_app "people.csv") w
    = (Ok tt, World n' ([] ++ report)) ∧
    os.stat (os_path (csv_in_app "people.csv")) n' = Ok (File (CsvText recs)) ∧
    xml_to_csv (xml_in_app "people.xml") (csv_in_app "people.csv")
      (World n' ([] ++ report))
    = (Ok tt, World n'' (([] ++ report) ++ report)) ∧
    os.stat (os_path (csv_in_app "people.csv")) n'' = Ok (File (CsvText recs)).
Proof.
  intros w recs report.
  eapply (X6_rerun_rewrites (xml_in_app "people.xml") (csv_in_app "people.csv")
            w people
            (mkElement "Sample" None [field "Name" "Alice"; field "Age" "30"])
            [mkElement "Sample" None [field "Name" "Bob"; field "City" "NYC"]]).
  - vm_compute; reflexivity.
  - vm_compute; reflexivity.
  - vm_compute; reflexivity.
  - cbn. right. right. by left.
  - vm_compute; reflexivity.
  - vm_compute; reflexivity.
Defined.

(** X7: a run of the driver that ended normally can be repeated: the
    directory [xml/csv] is still a directory after the files were written,
    so making it again changes nothing and the second run ends normally
    too. *)
Theorem X7_run_can_be_repeated (script_dir : Path) (w : world) :
  (main script_dir w).1 = Ok tt →
  (main script_dir (main script_dir w).2).1 = Ok tt.
Proof.
  intros Hok.
  destruct (main_returned script_dir w Hok) as (n' & Hmk & Hdir & Hglob & Hxml & Henc).
  apply (main_returns script_dir _ (fs (main script_dir w).2)).
  - unfold pathlib.mkdir. by apply mkdir_parents_existing.
  - exact Hxml.
  - intros f Hf. apply Henc. by apply Hglob.
Qed.

Lemma X7_run_can_be_repeated_witness :
  (main app_dir
     (main app_dir
        (World (fs_with {[ "people.xml" := File (XmlDocument people) ]}) [])).2).1
  = Ok tt.
Proof.
  apply (X7_run_can_be_repeated app_dir
           (World (fs_with {[ "people.xml" := File (XmlDocument people) ]}) [])).
  vm_compute; reflexivity.
Defined.

(** X8: the driver does not catch the failure of making [xml/csv].  With a
    regular file named [xml] beside the script the run ends with
    [NotADirectoryError], with a regular file [xml/csv] it ends with
    [FileExistsError]; in both cases nothing is printed and nothing is
    changed. *)
Theorem X8_regular_file_in_the_way (script_dir : Path) (w : world) (c : content) :
  (os.stat (os_path (joinpath script_dir "xml")) (fs w) = Ok (File c) →
   main script_dir w = (Raise NotADirectoryError, w)) ∧
  (os.stat (os_path (joinpath (joinpath script_dir "xml") "csv")) (fs w)
     = Ok (File c) →
   main script_dir w = (Raise FileExistsError, w)).
Proof.
  split; intros Hst; rewrite main_steps; unfold pathlib.mkdir, joinpath in *;
    cbn [mkdir_parents].
  - unfold os_path in *. cbn [rev] in *. unfold os.mkdir.
    rewrite (update_path_through_file _ _ _ "csv" [] _ _ Hst).
    cbn [is_OSError negb orb]. unfold is_dir, os_path. cbn [rev].
    rewrite stat_app, Hst. done.
  - rewrite (os_mkdir_exists _ _ _ Hst).
    cbn [is_OSError negb orb]. unfold is_dir. by rewrite Hst.
Qed.

Lemma X8_regular_file_in_the_way_witness :
  main app_dir (World (Dir {[ "app" := Dir {[ "xml" := File Malformed ]} ]}) [])
  = (Raise NotADirectoryError,
     World (Dir {[ "app" := Dir {[ "xml" := File Malformed ]} ]}) []).
Proof.
  destruct (X8_regular_file_in_the_way app_dir
              (World (Dir {[ "app" := Dir {[ "xml" := File Malformed ]} ]}) [])
              Malformed) as [Hxml _].
  apply Hxml. vm_compute; reflexivity.
Defined.

Section shallow_reading.
Implicit Types (s : Element) (row : gmap string string).

Lemma foldl_set_cell_shallow (cs1 cs2 : list Element) row :
  map (fun child => (tag child, text child)) cs1
    = map (fun child => (tag child, text child)) cs2 →
  foldl set_cell row cs1 = foldl set_cell row cs2.
Proof.
  revert cs2 row. induction cs1 as [|c1 cs1 IH]; intros [|c2 cs2] row Heq;
    try done.
  cbn [map] in Heq. injection Heq as Htag Htext Hrest. cbn [foldl].
  unfold set_cell at 2 4. rewrite Htag, Htext. by apply IH.
Qed.

Lemma shallow_build_row s1 s2 : shallow s1 = shallow s2 → build_row s1 = build_row s2.
Proof. apply foldl_set_cell_shallow. Qed.

Lemma shallow_child_tags s1 s2 : shallow s1 = shallow s2 → child_tags s1 = child_tags s2.
Proof.
  unfold shallow, child_tags. intros Heq.
  apply (f_equal (map fst)) in Heq. by rewrite !map_map in Heq.
Qed.
End shallow_reading.

(** X9: the header and the records depend on nothing but the tag and the
    text of the samples' direct children: the samples' own text, and all
    that lies below their children, is never read. *)
Theorem X9_only_direct_children_read (samples1 samples2 : list Element) :
  map shallow samples1 = map shallow samples2 →
  collect_field_names samples1 = collect_field_names samples2 ∧
  ∀ fieldnames, map (row_record fieldnames) samples1
                = map (row_record fieldnames) samples2.
Proof.
  intros Heq. rewrite !collect_field_names_eq.
  revert samples2 Heq.
  induction samples1 as [|s1 l1 IH]; intros [|s2 l2] Heq; try done.
  cbn [map] in Heq. injection Heq as Hs Hl.
  destruct (IH l2 Hl) as [_ Hrows].
  assert (Htags : flat_map child_tags l1 = flat_map child_tags l2).
  { clear -Hl. revert l2 Hl. induction l1 as [|a l1 IH]; intros [|b l2] Hl; try done.
    cbn [map] in Hl. injection Hl as Ha Hl. cbn [flat_map].
    by rewrite (shallow_child_tags _ _ Ha), (IH l2 Hl). }
  split.
  - cbn [flat_map]. by rewrite (shallow_child_tags _ _ Hs), Htags.
  - intros fieldnames. cbn [map]. rewrite Hrows. f_equal.
    unfold row_record. by rewrite (shallow_build_row _ _ Hs).
Qed.

Lemma X9_only_direct_children_read_witness :
  collect_field_names [twice] = collect_field_names [twice_deep] ∧
  ∀ fieldnames, map (row_record fieldnames) [twice]
                = map (row_record fieldnames) [twice_deep].
Proof.
  apply (X9_only_direct_children_read [twice] [twice_deep]). reflexivity.
Defined.

(** X10: for the files the driver finds, the file named [.xml] apart, the
    output name is the input name with [.xml] replaced by [.csv], and two
    of them with the same output name are the same file. *)
Theorem X10_output_names (dir : Path) (n : node) (f1 f2 : Path) :
  f1 ∈ glob_suffix ".xml" dir n → f2 ∈ glob_suffix ".xml" dir n →
  name f1 ≠ ".xml" → name f2 ≠ ".xml" →
  (∃ base, name f1 = base +:+ ".xml" ∧ stem f1 +:+ ".csv" = base +:+ ".csv") ∧
  (stem f1 +:+ ".csv" = stem f2 +:+ ".csv" → f1 = f2).
Proof.
  intros Hf1 Hf2 H1 H2. split.
  - by eapply csv_filename_correct.
  - by eapply csv_filename_injective.
Qed.

Lemma X10_output_names_witness :
  (∃ base, name (xml_in_app "a.b.xml") = base +:+ ".xml" ∧
           stem (xml_in_app "a.b.xml") +:+ ".csv" = base +:+ ".csv") ∧
  (stem (xml_in_app "a.b.xml") +:+ ".csv" = stem (xml_in_app "a.xml") +:+ ".csv" →
   xml_in_app "a.b.xml" = xml_in_app "a.xml").
Proof.
  apply (X10_output_names ["xml"; "app"]
           (fs_with {[ "a.b.xml" := File (XmlDocument people);
                       "a.xml" := File Malformed ]})).
  - apply list_elem_of_In. vm_compute. tauto.
  - apply list_elem_of_In. vm_compute. tauto.
  - vm_compute. discriminate.
  - vm_compute. discriminate.
Defined.

(** X13: in a batch, a well-formed file with samples whose output name no
    other file of the batch shares is converted as if it were alone,
    provided the loop reaches it and announces it: the paths of the files
    before it, and its own name, can be encoded.  When the loop ends its
    output holds its header and its records, whatever the other files hold,
    whatever happened to them, and however the loop ended. *)
Theorem X13_batch_output (script_dir : Path) (before after : list Path)
    (xml_name : string) (w : world) (root sample0 : Element)
    (remaining : list Element) (n1 : node) :
  let xml_dir := joinpath script_dir "xml" in
  let csv_dir := joinpath xml_dir "csv" in
  let xml_file := joinpath xml_dir xml_name in
  let csv_file_path := joinpath csv_dir (stem xml_file +:+ ".csv") in
  let samples := sample0 :: remaining in
  let field_names := collect_field_names samples in
  Str.endswith ".xml" xml_name = true →
  (∀ f, f ∈ before → encodable_path f = true) →
  Str.encodable xml_name = true →
  (∀ f, f ∈ before ++ after → stem f +:+ ".csv" ≠ stem xml_file +:+ ".csv") →
  ET.parse (os_path xml_file) (fs w) = Ok root →
  ET.findall_descendants "Sample" root = samples →
  os.open_w (os_path csv_file_path) (fs w) = Ok n1 →
  os.stat (os_path csv_file_path)
    (fs (for_each (before ++ xml_file :: after) (process_file csv_dir) w).2) =
    Ok (File (CsvText (field_names :: map (row_record field_names) samples))).
Proof.
  intros xml_dir csv_dir xml_file csv_file_path samples field_names
    Hend Hbefore Hname Hothers Hparse Hfind Hopen.
  assert (Hdiv : ∀ f, f ∈ before ++ after →
            diverge (os_path (joinpath csv_dir (stem f +:+ ".csv")))
                    (os_path csv_file_path)).
  { intros f Hf. apply outputs_diverge. by apply Hothers. }
  destruct (for_each_process_file_returns csv_dir before w Hbefore)
    as (w1 & Hrun1 & Hin1).
  destruct (for_each_process_file_frame csv_dir before w (os_path csv_file_path))
    as [_ Hk1].
  { intros f Hf. apply Hdiv, elem_of_app. by left. }
  rewrite for_each_app. unfold mbind at 1, M_bind at 1.
  rewrite Hrun1 in Hk1 |- *. cbn [snd] in Hk1.
  assert (Hparse1 : ET.parse (os_path xml_file) (fs w1) = Ok root).
  { rewrite <- Hparse. apply parse_frame, Hin1.
    intros out. by apply input_diverges_from_outputs. }
  destruct Hk1 as [n1' Hopen1]; [by exists n1|].
  destruct (process_file_output csv_dir xml_file w1 root sample0 remaining n1'
              Hname Hparse1 Hfind Hopen1) as (Hst2 & _).
  cbn [for_each]. unfold mbind, M_bind.
  destruct (process_file csv_dir xml_file w1) as [[[]|e] w2]; cbn [snd fs] in *;
    [|exact Hst2].
  destruct (for_each_process_file_frame csv_dir after w2 (os_path csv_file_path))
    as [-> _]; [|exact Hst2].
  intros f Hf. apply Hdiv, elem_of_app. by right.
Qed.

(** The listing gives [c.xml], [a.xml], [b.xml] in this order; [a.xml] is
    malformed, and the loop ends with the exception of the name that cannot
    be encoded, after it has converted [b.xml]. *)
Lemma X13_batch_output_witness :
  os.stat (os_path (csv_in_app "b.csv"))
    (fs (for_each ([xml_in_app "c.xml"; xml_in_app "a.xml"]
                     ++ xml_in_app "b.xml" :: [xml_in_app unencodable_xml])
           (process_file ["csv"; "xml"; "app"])
           (World (fs_with {[ "a.xml" := File Malformed;
                              "b.xml" := File (XmlDocument measurements);
                              "c.xml" := File (XmlDocument people);
                              unencodable_xml := File (XmlDocument people);
                              "csv" := Dir ∅ ]}) [])).2)
  = Ok (File (CsvText (["X"; "Y"; "Z"] ::
                       map (row_record ["X"; "Y"; "Z"])
                           [twice; mkElement "Sample" None [field "Z" "1"]]))).
Proof.
  eapply (X13_batch_output app_dir [xml_in_app "c.xml"; xml_in_app "a.xml"]
            [xml_in_app unencodable_xml] "b.xml"
            (World (fs_with {[ "a.xml" := File Malformed;
                               "b.xml" := File (XmlDocument measurements);
                               "c.xml" := File (XmlDocument people);
                               unencodable_xml := File (XmlDocument people);
                               "csv" := Dir ∅ ]}) [])
            measurements twice [mkElement "Sample" None [field "Z" "1"]]).
  - reflexivity.
  - intros f Hf. apply list_elem_of_In in Hf. cbn in Hf.
    destruct Hf as [<-|[<-|[]]]; vm_compute; reflexivity.
  - vm_compute; reflexivity.
  - intros f Hf. apply list_elem_of_In in Hf. cbn in Hf.
    destruct Hf as [<-|[<-|[<-|[]]]]; vm_compute; discriminate.
  - vm_compute; reflexivity.
  - vm_compute; reflexivity.
  - vm_compute; reflexivity.
Defined.

(** X14: when the directory [xml] is there and holds no entry whose name
    ends in [.xml], nothing is converted: once [xml/csv] is made, all the
    driver does is print that it found no XML files; it ends normally with
    that line when the path of [xml] can be encoded. *)
Theorem X14_no_xml_files (script_dir : Path) (w : world) (n' : node) :
  let xml_dir := joinpath script_dir "xml" in
  let csv_dir := joinpath xml_dir "csv" in
  is_dir xml_dir (fs w) = true →
  glob_suffix ".xml" xml_dir (fs w) = [] →
  pathlib.mkdir true true csv_dir (fs w) = Ok n' →
  main script_dir w = print (NoXmlFilesFound xml_dir) (World n' (console w)) ∧
  (encodable_path xml_dir = true →
   main script_dir w = (Ok tt, World n' (console w ++ [NoXmlFilesFound xml_dir]))).
Proof.
  intros xml_dir csv_dir Hdir Hnone Hmk.
  assert (Hmain : main script_dir w =
                  print (NoXmlFilesFound xml_dir) (World n' (console w))).
  2:{ split; [exact Hmain|]. intros Henc. rewrite Hmain.
      by rewrite print_encodable. }
  rewrite main_steps. fold xml_dir. fold csv_dir. rewrite Hmk.
  destruct (glob_suffix ".xml" xml_dir n') as [|f files] eqn:Hglob; [done|].
  exfalso.
  assert (Hf : f ∈ glob_suffix ".xml" xml_dir n') by (rewrite Hglob; left).
  apply glob_suffix_elem in Hf as (nm & -> & Hend & c & Hc).
  assert (Hc0 : os.stat (os_path (joinpath xml_dir nm)) (fs w) = Ok c).
  { unfold pathlib.mkdir, csv_dir in Hmk. cbn [mkdir_parents joinpath] in Hmk.
    unfold is_dir in Hdir.
    destruct (os.stat (os_path xml_dir) (fs w)) as [[?|es]|?] eqn:Hxml; try done.
    unfold os_path, xml_dir, joinpath in *. cbn [rev] in *.
    destruct (os.mkdir ((rev script_dir ++ ["xml"]) ++ ["csv"]) (fs w))
      as [n1|e] eqn:Hos.
    - injection Hmk as <-. rewrite <- Hc. symmetry.
      eapply update_path_frame; [exact Hos|].
      rewrite <- !app_assoc. apply diverge_app. cbn. right. left.
      intros <-. done.
    - pose proof (os_mkdir_in_dir _ _ _ _ _ Hxml Hos) as ->.
      cbn in Hmk. destruct (is_dir _ (fs w)); cbn in Hmk; [|done].
      by injection Hmk as <-. }
  assert (Hin : joinpath xml_dir nm ∈ glob_suffix ".xml" xml_dir (fs w)).
  { apply glob_suffix_elem. eauto. }
  rewrite Hnone in Hin. by apply elem_of_nil in Hin.
Qed.

Lemma X14_no_xml_files_witness :
  main app_dir (World (fs_with {[ "notes.txt" := File Malformed ]}) [])
  = (Ok tt, World (fs_with {[ "notes.txt" := File Malformed; "csv" := Dir ∅ ]})
              ([] ++ [NoXmlFilesFound (joinpath app_dir "xml")])).
Proof.
  destruct (X14_no_xml_files app_dir
              (World (fs_with {[ "notes.txt" := File Malformed ]}) [])
              (fs_with {[ "notes.txt" := File Malformed; "csv" := Dir ∅ ]}))
    as [_ Hok]; [vm_compute; reflexivity..|].
  apply Hok. reflexivity.
Defined.
